(** * The Mongo store client of app-functions-sdk-go

    A shallow embedding of [internal/store/db/mongo/store.go]: the
    [Client] operations [Store], [RetrieveFromStore], [Update],
    [UpdateRetryCount], [RemoveFromStore], and the bootstrap [NewClient].

    The Go driver ([go.mongodb.org/mongo-driver]) and the server behind it
    are the environment of the code.  They are modelled by an in-memory
    database: the documents of the one collection the client uses, the
    counter of the driver's ObjectID generator, a schedule that says which
    of the coming round trips fail, and the log of round trips issued.
    A deadline that expires during a call shows up as the failure of that
    round trip. *)

From Stdlib Require Import ZArith NArith Strings.Ascii Strings.Byte Lia.
From stdpp Require Import base strings gmap list pretty.

Global Instance byte_eq_dec : EqDecision Byte.byte := Byte.byte_eq_dec.

(** ** Values of the Go runtime and of the driver *)

(** [error] values the code creates or receives.  [runtime_panic] stands for
    a panicking type assertion: it is no Go [error], but it lets the
    embedding stay a total function. *)
Inductive error : Type :=
| errors_New (text : string)
| ErrNoDocuments
| CommandError (text : string)
| WriteException (code : Z)
| DecodeError (key : string)
| DeadlineExceeded
| Canceled
| runtime_panic (text : string).

Global Instance error_eq_dec : EqDecision error.
Proof. solve_decision. Defined.

Module primitive.

(** [type ObjectID [12]byte]: the 96-bit value, most significant byte
    first. *)
Definition ObjectID : Type := N.

Definition NilObjectID : ObjectID := 0%N.

(** Twelve bytes hold the values below [2^96]. *)
Definition valid (id : ObjectID) : Prop := (id < 16 ^ 24)%N.

(** The digit table of [encoding/hex]. *)
Definition hextable : string := "0123456789abcdef".

Definition hexDigit (n : N) : Ascii.ascii :=
  default "f"%char (String.get (N.to_nat n) hextable).

Fixpoint hexDigits (digits : nat) (n : N) (acc : string) : string :=
  match digits with
  | O => acc
  | S k => hexDigits k (N.div n 16) (String (hexDigit (N.modulo n 16)) acc)
  end.

(** [func (id ObjectID) Hex() string]: 24 lower-case hexadecimal digits. *)
Definition Hex (id : ObjectID) : string := hexDigits 24 id "".

End primitive.

Module bson.

(** The BSON values the client reads and writes. *)
Inductive Value : Type :=
| VObjectID (o : primitive.ObjectID)
| VString (s : string)
| VBinary (b : list Byte.byte)
| VInt (n : Z).

Global Instance Value_eq_dec : EqDecision Value.
Proof. solve_decision. Defined.

(** [bson.M], an unordered map from field names to values. *)
Abbreviation M := (gmap string Value).

End bson.

Import bson.

Module contracts.

(** [contracts.StoredObject], with the fields [Store] reads. *)
Record StoredObject : Type := {
  ID : string;
  AppServiceKey : string;
  Payload : list Byte.byte;
  RetryCount : Z;
  PipelinePosition : Z;
  Version : string;
  CorrelationID : string;
  EventID : string;
  EventChecksum : string
}.

End contracts.

(** ** The document mapper and the identifier codec (package [models]) *)

Module models.

(** Modelled from the spec: the struct [models.StoredObject] is declared
    in package [models], outside store.go.  The spec's document mapper is a
    field-for-field projection of the stored entity, with the identifier
    split into the opaque id and the correlation UUID. *)
Record StoredObject : Type := {
  ObjectID : primitive.ObjectID;
  UUID : string;
  AppServiceKey : string;
  Payload : list Byte.byte;
  RetryCount : Z;
  PipelinePosition : Z;
  Version : string;
  CorrelationID : string;
  EventID : string;
  EventChecksum : string
}.

Global Instance StoredObject_eq_dec : EqDecision StoredObject.
Proof. solve_decision. Defined.

(** The zero value [models.StoredObject{}]. *)
Definition zero : StoredObject :=
  {| ObjectID := primitive.NilObjectID; UUID := ""; AppServiceKey := "";
     Payload := []; RetryCount := 0; PipelinePosition := 0; Version := "";
     CorrelationID := ""; EventID := ""; EventChecksum := "" |}.

(** Modelled from the spec: the identifier codec, [models.FromContractId]
    in the code, is defined in package [models], outside store.go.  The
    spec gives its contract: [Decode] (here under its name in the code)
    yields the opaque id, the UUID and an error; [Encode] is its inverse. *)
Class IdentifierCodec : Type := {
  FromContractId : string → primitive.ObjectID * string * option error;
  Encode : primitive.ObjectID → string → string
}.

(** The spec's round trip: decoding an encoded pair yields the pair. *)
Definition lossless (codec : IdentifierCodec) : Prop :=
  ∀ o u, primitive.valid o → FromContractId (Encode o u) = (o, u, None).

(** One decoder per struct field, keyed by its BSON name. *)
Definition fieldDecoders
  : list (string * (Value → StoredObject → option StoredObject)) :=
  [ ("_id", λ v m, match v with
       | VObjectID x => Some
         {| ObjectID := x; UUID := UUID m; AppServiceKey := AppServiceKey m;
            Payload := Payload m; RetryCount := RetryCount m;
            PipelinePosition := PipelinePosition m; Version := Version m;
            CorrelationID := CorrelationID m; EventID := EventID m;
            EventChecksum := EventChecksum m |}
       | _ => None end);
    ("uuid", λ v m, match v with
       | VString x => Some
         {| ObjectID := ObjectID m; UUID := x; AppServiceKey := AppServiceKey m;
            Payload := Payload m; RetryCount := RetryCount m;
            PipelinePosition := PipelinePosition m; Version := Version m;
            CorrelationID := CorrelationID m; EventID := EventID m;
            EventChecksum := EventChecksum m |}
       | _ => None end);
    ("appServiceKey", λ v m, match v with
       | VString x => Some
         {| ObjectID := ObjectID m; UUID := UUID m; AppServiceKey := x;
            Payload := Payload m; RetryCount := RetryCount m;
            PipelinePosition := PipelinePosition m; Version := Version m;
            CorrelationID := CorrelationID m; EventID := EventID m;
            EventChecksum := EventChecksum m |}
       | _ => None end);
    ("payload", λ v m, match v with
       | VBinary x => Some
         {| ObjectID := ObjectID m; UUID := UUID m; AppServiceKey := AppServiceKey m;
            Payload := x; RetryCount := RetryCount m;
            PipelinePosition := PipelinePosition m; Version := Version m;
            CorrelationID := CorrelationID m; EventID := EventID m;
            EventChecksum := EventChecksum m |}
       | _ => None end);
    ("retryCount", λ v m, match v with
       | VInt x => Some
         {| ObjectID := ObjectID m; UUID := UUID m; AppServiceKey := AppServiceKey m;
            Payload := Payload m; RetryCount := x;
            PipelinePosition := PipelinePosition m; Version := Version m;
            CorrelationID := CorrelationID m; EventID := EventID m;
            EventChecksum := EventChecksum m |}
       | _ => None end);
    ("pipelinePosition", λ v m, match v with
       | VInt x => Some
         {| ObjectID := ObjectID m; UUID := UUID m; AppServiceKey := AppServiceKey m;
            Payload := Payload m; RetryCount := RetryCount m;
            PipelinePosition := x; Version := Version m;
            CorrelationID := CorrelationID m; EventID := EventID m;
            EventChecksum := EventChecksum m |}
       | _ => None end);
    ("version", λ v m, match v with
       | VString x => Some
         {| ObjectID := ObjectID m; UUID := UUID m; AppServiceKey := AppServiceKey m;
            Payload := Payload m; RetryCount := RetryCount m;
            PipelinePosition := PipelinePosition m; Version := x;
            CorrelationID := CorrelationID m; EventID := EventID m;
            EventChecksum := EventChecksum m |}
       | _ => None end);
    ("correlationID", λ v m, match v with
       | VString x => Some
         {| ObjectID := ObjectID m; UUID := UUID m; AppServiceKey := AppServiceKey m;
            Payload := Payload m; RetryCount := RetryCount m;
            PipelinePosition := PipelinePosition m; Version := Version m;
            CorrelationID := x; EventID := EventID m;
            EventChecksum := EventChecksum m |}
       | _ => None end);
    ("eventID", λ v m, match v with
       | VString x => Some
         {| ObjectID := ObjectID m; UUID := UUID m; AppServiceKey := AppServiceKey m;
            Payload := Payload m; RetryCount := RetryCount m;
            PipelinePosition := PipelinePosition m; Version := Version m;
            CorrelationID := CorrelationID m; EventID := x;
            EventChecksum := EventChecksum m |}
       | _ => None end);
    ("eventChecksum", λ v m, match v with
       | VString x => Some
         {| ObjectID := ObjectID m; UUID := UUID m; AppServiceKey := AppServiceKey m;
            Payload := Payload m; RetryCount := RetryCount m;
            PipelinePosition := PipelinePosition m; Version := Version m;
            CorrelationID := CorrelationID m; EventID := EventID m;
            EventChecksum := x |}
       | _ => None end) ].

(** The driver decodes a document into the struct element by element and
    stops at the first value of the wrong type: the fields set before it
    keep their new values, the later ones are left alone, and a key the
    document lacks leaves its field alone.  The server keeps [_id] first. *)
Fixpoint decodeFields
    (fs : list (string * (Value → StoredObject → option StoredObject)))
    (d : bson.M) (m : StoredObject) : StoredObject * option error :=
  match fs with
  | [] => (m, None)
  | (key, dec) :: rest =>
    match d !! key with
    | None => decodeFields rest d m
    | Some v =>
      match dec v m with
      | Some m' => decodeFields rest d m'
      | None => (m, Some (DecodeError key))
      end
    end
  end.

Definition unmarshal (d : bson.M) (m : StoredObject)
  : StoredObject * option error :=
  decodeFields fieldDecoders d m.

(** Modelled from the spec: [ToDocument], the projection the driver
    applies to [&model] in [Update].  It leaves the opaque-id field out
    when the id is unassigned and includes it verbatim otherwise. *)
Definition marshal (m : StoredObject) : bson.M :=
  let fields : bson.M :=
    {[ "uuid" := VString (UUID m);
       "appServiceKey" := VString (AppServiceKey m);
       "payload" := VBinary (Payload m);
       "retryCount" := VInt (RetryCount m);
       "pipelinePosition" := VInt (PipelinePosition m);
       "version" := VString (Version m);
       "correlationID" := VString (CorrelationID m);
       "eventID" := VString (EventID m);
       "eventChecksum" := VString (EventChecksum m) ]} in
  if decide (ObjectID m = primitive.NilObjectID) then fields
  else <["_id" := VObjectID (ObjectID m)]> fields.

Section Mapper.
Context `{codec : IdentifierCodec}.

(** Modelled from the spec: the method [FromContract] of the model
    struct, defined in package [models], outside store.go.  It decodes the
    identifier and copies the other fields one by one. *)
Definition FromContract (c : contracts.StoredObject)
  : StoredObject * option error :=
  match FromContractId (contracts.ID c) with
  | (_, _, Some err) => (zero, Some err)
  | (objID, uuid, None) =>
    ({| ObjectID := objID; UUID := uuid;
        AppServiceKey := contracts.AppServiceKey c;
        Payload := contracts.Payload c;
        RetryCount := contracts.RetryCount c;
        PipelinePosition := contracts.PipelinePosition c;
        Version := contracts.Version c;
        CorrelationID := contracts.CorrelationID c;
        EventID := contracts.EventID c;
        EventChecksum := contracts.EventChecksum c |}, None)
  end.

(** Modelled from the spec: [StoredObject.ToContract], defined in
    package [models], outside store.go.  The spec's [FromDocument]
    rebuilds [ID] with the codec's [Encode]. *)
Definition ToContract (m : StoredObject) : contracts.StoredObject :=
  {| contracts.ID := Encode (ObjectID m) (UUID m);
     contracts.AppServiceKey := AppServiceKey m;
     contracts.Payload := Payload m;
     contracts.RetryCount := RetryCount m;
     contracts.PipelinePosition := PipelinePosition m;
     contracts.Version := Version m;
     contracts.CorrelationID := CorrelationID m;
     contracts.EventID := EventID m;
     contracts.EventChecksum := EventChecksum m |}.
End Mapper.

End models.

(** ** The driver and the server behind it (package [mongo]) *)

Module mongo.

(** The update document [bson.M{"$set": fields}]. *)
Inductive UpdateDocument : Type :=
| set_ (fields : bson.M).

(** The round trips the client can issue on its collection. *)
Inductive Call : Type :=
| FindOneCall (filter : bson.M)
| InsertOneCall (document : bson.M)
| FindCall (filter : bson.M)
| ReplaceOneCall (filter replacement : bson.M)
| UpdateOneCall (filter : bson.M) (update : UpdateDocument)
| DeleteOneCall (filter : bson.M).

(** The database handle [c.Client] together with what lies behind it.
    [network] lists the fate of the coming round trips, [None] for one
    that is served and [Some e] for one that fails with [e] (an empty
    schedule serves everything); [cursorFault] makes the next cursor
    break with an error after it has delivered that many documents. *)
Record Database : Type := {
  documents : list bson.M;
  nextID : primitive.ObjectID;
  network : list (option error);
  cursorFault : option (nat * error);
  roundTrips : list Call
}.

(** Computations against the database. *)
Definition IO (A : Type) : Type := Database → A * Database.

Definition ret {A} (a : A) : IO A := λ db, (a, db).

Definition bind {A B} (m : IO A) (k : A → IO B) : IO B :=
  λ db, let (a, db') := m db in k a db'.

Declare Scope io_scope.
Delimit Scope io_scope with io.
Notation "x <- m ;; k" := (bind m (λ x, k))
  (at level 100, m at next level, right associativity) : io_scope.
Notation "m ;;; k" := (bind m (λ _, k))
  (at level 100, right associativity) : io_scope.
Local Open Scope io_scope.

Definition get : IO Database := λ db, (db, db).

Definition setDocuments (docs : list bson.M) : IO unit := λ db,
  (tt, {| documents := docs; nextID := nextID db; network := network db;
          cursorFault := cursorFault db; roundTrips := roundTrips db |}).

(** One round trip: it is logged, and the head of the schedule decides
    whether it is served. *)
Definition roundTrip (c : Call) : IO (option error) := λ db,
  (default None (head (network db)),
   {| documents := documents db; nextID := nextID db;
      network := tail (network db); cursorFault := cursorFault db;
      roundTrips := roundTrips db ++ [c] |}).

(** [primitive.NewObjectID()]: the generator counts upwards. *)
Definition NewObjectID : IO primitive.ObjectID := λ db,
  (nextID db,
   {| documents := documents db; nextID := N.succ (nextID db);
      network := network db; cursorFault := cursorFault db;
      roundTrips := roundTrips db |}).

Definition takeCursorFault : IO (option (nat * error)) := λ db,
  (cursorFault db,
   {| documents := documents db; nextID := nextID db;
      network := network db; cursorFault := None;
      roundTrips := roundTrips db |}).

(** A filter [bson.M{k: v, ...}] selects the documents that carry each of
    its fields with an equal value. *)
Definition matches (filter d : bson.M) : bool :=
  bool_decide (map_Forall (λ k v, d !! k = Some v) filter).

Definition hasID (id : Value) (d : bson.M) : bool :=
  bool_decide (d !! "_id" = Some id).

(** [*SingleResult]: an error, or the raw document found. *)
Record SingleResult : Type := { err : option error; rdr : bson.M }.

(** [Collection.FindOne]: the first matching document in store order,
    [ErrNoDocuments] when there is none. *)
Definition FindOne (filter : bson.M) : IO SingleResult :=
  failure <- roundTrip (FindOneCall filter) ;;
  match failure with
  | Some e => ret {| err := Some e; rdr := ∅ |}
  | None =>
    db <- get ;;
    match List.find (matches filter) (documents db) with
    | Some d => ret {| err := None; rdr := d |}
    | None => ret {| err := Some ErrNoDocuments; rdr := ∅ |}
    end
  end.

(** [SingleResult.Decode(v)]: the result's own error when it has one,
    with [v] untouched; the unmarshalling of the document otherwise. *)
Definition Decode (r : SingleResult) (v : models.StoredObject)
  : models.StoredObject * option error :=
  match err r with
  | Some e => (v, Some e)
  | None => models.unmarshal (rdr r) v
  end.

Record InsertOneResult : Type := { InsertedID : Value }.

(** [Collection.InsertOne]: the driver adds a generated [_id] to a
    document that has none; the server refuses an [_id] that is taken
    (write error 11000) and appends the document otherwise. *)
Definition InsertOne (document : bson.M) : IO (error + InsertOneResult) :=
  id <- match document !! "_id" with
        | Some v => ret v
        | None => (oid <- NewObjectID ;; ret (VObjectID oid))
        end ;;
  failure <- roundTrip (InsertOneCall document) ;;
  match failure with
  | Some e => ret (inl e)
  | None =>
    db <- get ;;
    if existsb (hasID id) (documents db)
    then ret (inl (WriteException 11000))
    else (setDocuments (documents db ++ [<["_id" := id]> document]) ;;;
          ret (inr {| InsertedID := id |}))
  end.

(** [*Cursor]: the documents it will deliver, and the error it ends
    with, if any. *)
Record Cursor : Type := { batch : list bson.M; failure : option error }.

(** [Collection.Find]: a cursor over the matching documents, in store
    order. *)
Definition Find (filter : bson.M) : IO (error + Cursor) :=
  failed <- roundTrip (FindCall filter) ;;
  match failed with
  | Some e => ret (inl e)
  | None =>
    db <- get ;;
    fault <- takeCursorFault ;;
    let matched := List.filter (matches filter) (documents db) in
    match fault with
    | Some (n, e) => ret (inr {| batch := take n matched; failure := Some e |})
    | None => ret (inr {| batch := matched; failure := None |})
    end
  end.

(** Rewrites the first document that satisfies [p], in store order, and
    counts it. *)
Fixpoint rewriteFirst (p : bson.M → bool) (f : bson.M → bson.M)
    (docs : list bson.M) : list bson.M * Z :=
  match docs with
  | [] => ([], 0%Z)
  | d :: rest =>
    if p d then (f d :: rest, 1%Z)
    else let (rest', n) := rewriteFirst p f rest in (d :: rest', n)
  end.

Fixpoint removeFirst (p : bson.M → bool) (docs : list bson.M)
  : list bson.M * Z :=
  match docs with
  | [] => ([], 0%Z)
  | d :: rest =>
    if p d then (rest, 1%Z)
    else let (rest', n) := removeFirst p rest in (d :: rest', n)
  end.

Record UpdateResult : Type := { MatchedCount : Z }.
Record DeleteResult : Type := { DeletedCount : Z }.

(** [$set] overwrites the fields it names and keeps the others. *)
Definition applyUpdate (u : UpdateDocument) (d : bson.M) : bson.M :=
  match u with
  | set_ fields => fields ∪ d
  end.

(** [Collection.UpdateOne]: no match is no error. *)
Definition UpdateOne (filter : bson.M) (update : UpdateDocument)
  : IO (error + UpdateResult) :=
  failed <- roundTrip (UpdateOneCall filter update) ;;
  match failed with
  | Some e => ret (inl e)
  | None =>
    db <- get ;;
    let (docs, n) := rewriteFirst (matches filter) (applyUpdate update) (documents db) in
    setDocuments docs ;;;
    ret (inr {| MatchedCount := n |})
  end.

(** A replacement keeps the [_id] of the document it replaces. *)
Definition keepID (replacement d : bson.M) : bson.M :=
  match d !! "_id" with
  | Some v => <["_id" := v]> replacement
  | None => replacement
  end.

(** [Collection.ReplaceOne]: the server refuses a replacement that would
    change [_id] (write error 66); no match is no error. *)
Definition ReplaceOne (filter replacement : bson.M)
  : IO (error + UpdateResult) :=
  failed <- roundTrip (ReplaceOneCall filter replacement) ;;
  match failed with
  | Some e => ret (inl e)
  | None =>
    db <- get ;;
    match List.find (matches filter) (documents db) with
    | None => ret (inr {| MatchedCount := 0 |})
    | Some d =>
      if bool_decide (is_Some (replacement !! "_id")
                      ∧ replacement !! "_id" ≠ d !! "_id")
      then ret (inl (WriteException 66))
      else
        let (docs, n) := rewriteFirst (matches filter) (keepID replacement) (documents db) in
        setDocuments docs ;;;
        ret (inr {| MatchedCount := n |})
    end
  end.

(** [Collection.DeleteOne]: no match is no error. *)
Definition DeleteOne (filter : bson.M) : IO (error + DeleteResult) :=
  failed <- roundTrip (DeleteOneCall filter) ;;
  match failed with
  | Some e => ret (inl e)
  | None =>
    db <- get ;;
    let (docs, n) := removeFirst (matches filter) (documents db) in
    setDocuments docs ;;;
    ret (inr {| DeletedCount := n |})
  end.

End mongo.

(** ** The store client (store.go) *)

Import mongo.
Local Open Scope io_scope.

Definition mongoCollection : string := "store".

Section StoreClient.
Context `{codec : models.IdentifierCodec}.

(** [func (c Client) Store(o contracts.StoredObject) (string, error)] *)
Definition Store (o : contracts.StoredObject) : IO (string * option error) :=
  match models.FromContractId (contracts.ID o) with
  | (_, _, Some err) => ret ("", Some err)
  | (objID, uuid, None) =>
    (* lines 97-102, shared by the two branches *)
    let insert (doc : bson.M) : IO (string * option error) :=
      r <- InsertOne doc ;;
      match r with
      | inl err => ret ("", Some err)
      | inr result =>
        match InsertedID result with
        | VObjectID id => ret (primitive.Hex id, None)
        | _ => ret ("", Some (runtime_panic "interface conversion"))
        end
      end in
    if decide (objID = primitive.NilObjectID) then
      (* determine if this object already exists in the DB *)
      let filter : bson.M := {[ "uuid" := VString uuid ]} in
      result <- FindOne filter ;;
      let (m, _) := Decode result models.zero in
      if negb (bool_decide (m = models.zero))
      then ret ("", Some (errors_New "object exists in database"))
      else
        insert
          {[ "uuid" := VString uuid;
             "appServiceKey" := VString (contracts.AppServiceKey o);
             "payload" := VBinary (contracts.Payload o);
             "retryCount" := VInt (contracts.RetryCount o);
             "pipelinePosition" := VInt (contracts.PipelinePosition o);
             "version" := VString (contracts.Version o);
             "correlationID" := VString (contracts.CorrelationID o);
             "eventID" := VString (contracts.EventID o);
             "eventChecksum" := VString (contracts.EventChecksum o) ]}
    else
      insert
        {[ "_id" := VObjectID objID;
           "uuid" := VString uuid;
           "appServiceKey" := VString (contracts.AppServiceKey o);
           "payload" := VBinary (contracts.Payload o);
           "retryCount" := VInt (contracts.RetryCount o);
           "pipelinePosition" := VInt (contracts.PipelinePosition o);
           "version" := VString (contracts.Version o);
           "correlationID" := VString (contracts.CorrelationID o);
           "eventID" := VString (contracts.EventID o);
           "eventChecksum" := VString (contracts.EventChecksum o) ]}
  end.

(** The loop [for cursor.Next(ctx) { ... }]: one turn per document the
    cursor delivers; a document that does not decode ends the whole
    call with the decode error. *)
Fixpoint forNext (pending : list bson.M) (modelSlice : list models.StoredObject)
  : error + list models.StoredObject :=
  match pending with
  | [] => inr modelSlice
  | d :: rest =>
    match models.unmarshal d models.zero with
    | (_, Some err) => inl err
    | (p, None) => forNext rest (modelSlice ++ [p])
    end
  end.

(** [func (c Client) RetrieveFromStore(appServiceKey string)
     (objects []contracts.StoredObject, err error)] *)
Definition RetrieveFromStore (appServiceKey : string)
  : IO (list contracts.StoredObject * option error) :=
  let filter : bson.M := {[ "appServiceKey" := VString appServiceKey ]} in
  r <- Find filter ;;
  match r with
  | inl err => ret ([], Some err)
  | inr cursor =>
    match forNext (batch cursor) [] with
    | inl err => ret ([], Some err)
    | inr modelSlice =>
      (* check if the cursor encountered any errors while iterating *)
      match failure cursor with
      | Some err => ret ([], Some err)
      | None => ret (map models.ToContract modelSlice, None)
      end
    end
  end.

(** [func (c Client) Update(o contracts.StoredObject) error] *)
Definition Update (o : contracts.StoredObject) : IO (option error) :=
  if decide (contracts.ID o = "")
  then ret (Some (errors_New "update argument object does not have an UUID"))
  else
    match models.FromContract o with
    | (_, Some err) => ret (Some err)
    | (model, None) =>
      let filter : bson.M := {[ "_id" := VObjectID (models.ObjectID model) ]} in
      r <- ReplaceOne filter (models.marshal model) ;;
      match r with
      | inl err => ret (Some err)
      | inr _ => ret None
      end
    end.

(** [func (c Client) UpdateRetryCount(id string, count int) error] *)
Definition UpdateRetryCount (id : string) (count : Z) : IO (option error) :=
  if decide (id = "")
  then ret (Some (errors_New "no UUID provided"))
  else
    match models.FromContractId id with
    | (_, _, Some err) => ret (Some err)
    | (objID, _, None) =>
      let filter : bson.M := {[ "_id" := VObjectID objID ]} in
      let update := set_ {[ "retryCount" := VInt count ]} in
      r <- UpdateOne filter update ;;
      match r with
      | inl err => ret (Some err)
      | inr _ => ret None
      end
    end.

(** [func (c Client) RemoveFromStore(id string) error] *)
Definition RemoveFromStore (id : string) : IO (option error) :=
  if decide (id = "")
  then ret (Some (errors_New "no UUID provided"))
  else
    match models.FromContractId id with
    | (_, _, Some err) => ret (Some err)
    | (objID, _, None) =>
      let filter : bson.M := {[ "_id" := VObjectID objID ]} in
      r <- DeleteOne filter ;;
      match r with
      | inl err => ret (Some err)
      | inr _ => ret None
      end
    end.

End StoreClient.

(** The spec's names for the errors the client itself creates. *)
Definition DuplicateObject : error := errors_New "object exists in database".

Definition MissingIdentifier (e : error) : Prop :=
  e = errors_New "update argument object does not have an UUID"
  ∨ e = errors_New "no UUID provided".

(** The position of a character in a digit table. *)
Fixpoint indexIn (table : string) (c : Ascii.ascii) (i : N) : option N :=
  match table with
  | EmptyString => None
  | String c' rest => if Ascii.eqb c c' then Some i else indexIn rest c (N.succ i)
  end.

(** The value of a hexadecimal digit. *)
Definition unhexDigit (c : Ascii.ascii) : option N :=
  indexIn primitive.hextable c 0%N.

(** Reads that many hexadecimal digits off the front of a string. *)
Fixpoint splitHex (digits : nat) (s : string) (acc : N) : option (N * string) :=
  match digits with
  | O => Some (acc, s)
  | S k =>
    match s with
    | String c rest =>
      match unhexDigit c with
      | Some d => splitHex k rest (acc * 16 + d)%N
      | None => None
      end
    | EmptyString => None
    end
  end.

Definition MalformedIdentifier : error := errors_New "malformed identifier".

(** Modelled from the spec: a sample identifier codec, for the concrete
    runs below.  The codec itself is defined outside store.go; the spec asks for a composite string that splits into an opaque-id
    segment and a UUID segment, decodes losslessly, and is empty for an
    item not yet persisted.  Here the opaque-id segment is the 24
    hexadecimal digits of the id and the UUID segment is what follows. *)
Definition compositeCodec : models.IdentifierCodec :=
  {| models.FromContractId := λ s,
       if decide (s = "") then (primitive.NilObjectID, "", None)
       else match splitHex 24 s 0 with
            | Some (o, u) => (o, u, None)
            | None => (primitive.NilObjectID, "", Some MalformedIdentifier)
            end;
     models.Encode := λ o u, primitive.Hex o +:+ u |}.

(** ** The connection bootstrap ([NewClient]) *)

Module db.

(** [db.Configuration], with the fields [NewClient] reads. *)
Record Configuration : Type := {
  Host : string;
  Port : Z;
  Username : string;
  Password : string;
  DatabaseName : string;
  Timeout : Z
}.

End db.

Module bootstrap.

(** The connection URI, with or without credentials. *)
Definition uri (config : db.Configuration) : string :=
  if decide (db.Username config = "" ∧ db.Password config = "")
  then "mongodb://" +:+ db.Host config +:+ ":" +:+ pretty (db.Port config)
  else "mongodb://" +:+ db.Username config +:+ ":" +:+ db.Password config
       +:+ "@" +:+ db.Host config +:+ ":" +:+ pretty (db.Port config).

(** [time.Duration(config.Timeout) * time.Millisecond], in nanoseconds. *)
Definition timeout (config : db.Configuration) : Z :=
  (db.Timeout config * 1000000)%Z.

(** The value [Client{timeout, mongoDatabase, mongoClient}].  A client
    handle is the URI it was opened on, a database handle adds the
    database name; both are pointers and may be nil. *)
Record Client : Type := {
  Timeout : Z;
  Database : option (string * string);
  client : option string
}.

(** [ctx]: not done yet, or done with the cause [ctx.Err()] reports. *)
Inductive Context : Type :=
| Active
| Done (cause : error).

(** Where the goroutine stands. *)
Inductive Task : Type :=
| AtConnect        (* about to return from mongo.Connect *)
| AtPing           (* about to return from mongoClient.Ping *)
| AtCancel         (* err is set; about to call cancel() and return *)
| AtDatabase       (* about to set mongoDatabase *)
| AtSend           (* blocked in notify <- true *)
| Exited.

(** Where the caller stands: in the [select], or returned. *)
Inductive Caller : Type :=
| AtSelect
| Returned (c : option Client) (e : option error).

(** The variables the two threads share, and their positions. *)
Record World : Type := {
  ctx : Context;
  err : option error;
  mongoClient : option string;
  mongoDatabase : option (string * string);
  task : Task;
  caller : Caller
}.

Definition start : World :=
  {| ctx := Active; err := None; mongoClient := None; mongoDatabase := None;
     task := AtConnect; caller := AtSelect |}.

(** [cancel()]: the first cause stays. *)
Definition cancel (c : Context) : Context :=
  match c with
  | Active => Done Canceled
  | Done cause => Done cause
  end.

(** The atomic steps of the two threads and of the timer.  The driver
    decides how [Connect] and [Ping] return. *)
Inductive Event : Type :=
| DeadlineElapses
| ConnectFails (e : error)
| ConnectSucceeds
| PingFails (e : error)
| PingSucceeds
| CancelCalled
| DatabaseOpened
| ReceiveNotify      (* select: case <-notify *)
| ReceiveDone.       (* select: case <-ctx.Done() *)

Section Steps.
Variable config : db.Configuration.

Definition step (ev : Event) (w : World) : option World :=
  match ev with
  | DeadlineElapses =>
    match ctx w with
    | Active =>
      Some {| ctx := Done DeadlineExceeded; err := err w;
              mongoClient := mongoClient w; mongoDatabase := mongoDatabase w;
              task := task w; caller := caller w |}
    | Done _ => None
    end
  | ConnectFails e =>
    match task w with
    | AtConnect =>
      Some {| ctx := ctx w; err := Some e;
              mongoClient := None; mongoDatabase := mongoDatabase w;
              task := AtCancel; caller := caller w |}
    | _ => None
    end
  | ConnectSucceeds =>
    match task w with
    | AtConnect =>
      Some {| ctx := ctx w; err := None;
              mongoClient := Some (uri config); mongoDatabase := mongoDatabase w;
              task := AtPing; caller := caller w |}
    | _ => None
    end
  | PingFails e =>
    match task w with
    | AtPing =>
      Some {| ctx := ctx w; err := Some e;
              mongoClient := mongoClient w; mongoDatabase := mongoDatabase w;
              task := AtCancel; caller := caller w |}
    | _ => None
    end
  | PingSucceeds =>
    match task w with
    | AtPing =>
      Some {| ctx := ctx w; err := None;
              mongoClient := mongoClient w; mongoDatabase := mongoDatabase w;
              task := AtDatabase; caller := caller w |}
    | _ => None
    end
  | CancelCalled =>
    match task w with
    | AtCancel =>
      Some {| ctx := cancel (ctx w); err := err w;
              mongoClient := mongoClient w; mongoDatabase := mongoDatabase w;
              task := Exited; caller := caller w |}
    | _ => None
    end
  | DatabaseOpened =>
    match task w with
    | AtDatabase =>
      Some {| ctx := ctx w; err := err w;
              mongoClient := mongoClient w;
              mongoDatabase :=
                (λ c, (c, db.DatabaseName config)) <$> mongoClient w;
              task := AtSend; caller := caller w |}
    | _ => None
    end
  | ReceiveNotify =>
    match caller w, task w with
    | AtSelect, AtSend =>
      (* return Client{timeout, mongoDatabase, mongoClient}, nil;
         the deferred cancel() runs *)
      Some {| ctx := cancel (ctx w); err := None;
              mongoClient := mongoClient w; mongoDatabase := mongoDatabase w;
              task := Exited;
              caller := Returned
                (Some {| Timeout := timeout config;
                         Database := mongoDatabase w;
                         client := mongoClient w |}) None |}
    | _, _ => None
    end
  | ReceiveDone =>
    match caller w, ctx w with
    | AtSelect, Done cause =>
      (* [err] is the named result: returning assigns it *)
      let result :=
        match err w with
        | Some e => Some e       (* an error from the business logic *)
        | None => Some cause     (* timeout exceeded: ctx.Err() *)
        end in
      Some {| ctx := ctx w; err := result;
              mongoClient := mongoClient w; mongoDatabase := mongoDatabase w;
              task := task w;
              caller := Returned None result |}
    | _, _ => None
    end
  end.

(** A run: the events in the order a schedule lets them happen. *)
Fixpoint run (evs : list Event) (w : World) : option World :=
  match evs with
  | [] => Some w
  | ev :: rest =>
    match step ev w with
    | Some w' => run rest w'
    | None => None
    end
  end.


End Steps.


End bootstrap.

(** ** Vocabulary of the statements *)

(** The nine fields both document literals of [Store] list. *)
Definition objectFields (uuid : string) (o : contracts.StoredObject) : bson.M :=
  {[ "uuid" := VString uuid;
     "appServiceKey" := VString (contracts.AppServiceKey o);
     "payload" := VBinary (contracts.Payload o);
     "retryCount" := VInt (contracts.RetryCount o);
     "pipelinePosition" := VInt (contracts.PipelinePosition o);
     "version" := VString (contracts.Version o);
     "correlationID" := VString (contracts.CorrelationID o);
     "eventID" := VString (contracts.EventID o);
     "eventChecksum" := VString (contracts.EventChecksum o) ]}.

(** What [Store] makes of the outcome of its insertion (lines 97-102). *)
Definition insertOutcome (r : error + InsertOneResult) : string * option error :=
  match r with
  | inl err => ("", Some err)
  | inr result =>
    match InsertedID result with
    | VObjectID id => (primitive.Hex id, None)
    | _ => ("", Some (runtime_panic "interface conversion"))
    end
  end.

(** The filters the client uses. *)
Definition byUUID (uuid : string) : bson.M := {[ "uuid" := VString uuid ]}.
Definition byID (objID : primitive.ObjectID) : bson.M := {[ "_id" := VObjectID objID ]}.
Definition byAppServiceKey (key : string) : bson.M := {[ "appServiceKey" := VString key ]}.

(** The coming [n] round trips are served. *)
Definition served (n : nat) (db : Database) : Prop :=
  Forall (λ fate, fate = None) (take n (network db)).

(** The fate of the next round trip. *)
Definition nextFate (db : Database) : option error :=
  default None (head (network db)).

(** A stored document carries an opaque id the store has assigned. *)
Definition assigned (d : bson.M) : Prop :=
  ∃ id, d !! "_id" = Some (VObjectID id) ∧ id ≠ primitive.NilObjectID.

(** The documents that carry a given correlation UUID. *)
Definition withUUID (uuid : string) (db : Database) : list bson.M :=
  List.filter (matches (byUUID uuid)) (documents db).

(** No stored document has the id the generator hands out next. *)
Definition freshID (id : Value) (db : Database) : Prop :=
  Forall (λ d, d !! "_id" ≠ Some id) (documents db).

(** The insertion of a new item, as [Store] runs it once the lookup has
    not stopped it: lines 71-81 and 97-102. *)
Definition insertion (uuid : string) (o : contracts.StoredObject)
  : IO (string * option error) :=
  r <- InsertOne (objectFields uuid o) ;; ret (insertOutcome r).

(** The documents of an application service, in store order. *)
Definition matching (key : string) (db : Database) : list bson.M :=
  List.filter (matches (byAppServiceKey key)) (documents db).

(** The documents the cursor of a served [Find] delivers. *)
Definition delivered (key : string) (db : Database) : list bson.M :=
  match cursorFault db with
  | Some (n, _) => take n (matching key db)
  | None => matching key db
  end.

(** The document decodes into the model struct without error. *)
Definition decodes (d : bson.M) : Prop :=
  (models.unmarshal d models.zero).2 = None.

(** The state right after a round trip has been issued. *)
Definition afterCall (c : Call) (db : Database) : Database :=
  (roundTrip c db).2.

(** The state an accepted insertion leaves behind. *)
Definition afterInsert (document : bson.M) (id : Value) (db : Database)
  : Database :=
  {| documents := documents db ++ [<["_id" := id]> document];
     nextID := match document !! "_id" with
               | Some _ => nextID db
               | None => N.succ (nextID db)
               end;
     network := tail (network db);
     cursorFault := cursorFault db;
     roundTrips := roundTrips db ++ [InsertOneCall document] |}.

Global Instance decodes_dec d : Decision (decodes d).
Proof. unfold decodes. apply _. Defined.

(** Closed decidable facts are settled by evaluation. *)
Ltac computed := apply (bool_decide_unpack _); vm_compute; exact I.

(** The calls an operation has added to the log. *)
Definition issued (db db' : Database) (calls : list Call) : Prop :=
  roundTrips db' = roundTrips db ++ calls.

(** ** Sample data for the concrete runs *)

Definition sampleUUID : string := "6ba7b810-9dad-11d1-80b4-00c04fd430c8".

(** An item not yet persisted: no opaque id, a correlation UUID. *)
Definition sampleObject : contracts.StoredObject :=
  {| contracts.ID := "000000000000000000000000" +:+ sampleUUID;
     contracts.AppServiceKey := "svcA";
     contracts.Payload := [Byte.x01; Byte.x02];
     contracts.RetryCount := 0;
     contracts.PipelinePosition := 0;
     contracts.Version := "1";
     contracts.CorrelationID := "";
     contracts.EventID := "";
     contracts.EventChecksum := "" |}.

(** An item exported earlier and restored now: opaque id 42. *)
Definition restoredObject : contracts.StoredObject :=
  {| contracts.ID := "00000000000000000000002a" +:+ sampleUUID;
     contracts.AppServiceKey := "svcA";
     contracts.Payload := [Byte.x01; Byte.x02];
     contracts.RetryCount := 3;
     contracts.PipelinePosition := 1;
     contracts.Version := "1";
     contracts.CorrelationID := "";
     contracts.EventID := "";
     contracts.EventChecksum := "" |}.

(** An object that was never given an identifier. *)
Definition unidentifiedObject : contracts.StoredObject :=
  {| contracts.ID := "";
     contracts.AppServiceKey := "svcA";
     contracts.Payload := [Byte.x01; Byte.x02];
     contracts.RetryCount := 0;
     contracts.PipelinePosition := 0;
     contracts.Version := "1";
     contracts.CorrelationID := "";
     contracts.EventID := "";
     contracts.EventChecksum := "" |}.

(** Two identifiers for opaque id 1 that differ in the UUID segment. *)
Definition idOne : string := "000000000000000000000001" +:+ sampleUUID.
Definition idOneOther : string :=
  "000000000000000000000001" +:+ "00000000-0000-0000-0000-000000000000".

(** An empty collection behind a network that serves every call. *)
Definition emptyDatabase : Database :=
  {| documents := []; nextID := 1%N; network := []; cursorFault := None;
     roundTrips := [] |}.

(** The collection after [sampleObject] has been stored once. *)
Definition storedOnce : Database :=
  {| documents := [<["_id" := VObjectID 1%N]> (objectFields sampleUUID sampleObject)];
     nextID := 2%N; network := []; cursorFault := None; roundTrips := [] |}.

(** The same collection behind a network that drops the next call. *)
Definition storedOnceFlaky : Database :=
  {| documents := [<["_id" := VObjectID 1%N]> (objectFields sampleUUID sampleObject)];
     nextID := 2%N; network := [Some (CommandError "connection reset by peer")];
     cursorFault := None; roundTrips := [] |}.

(** An item of another application service. *)
Definition otherObject : contracts.StoredObject :=
  {| contracts.ID := "";
     contracts.AppServiceKey := "svcB";
     contracts.Payload := [Byte.xff];
     contracts.RetryCount := 1;
     contracts.PipelinePosition := 0;
     contracts.Version := "1";
     contracts.CorrelationID := "";
     contracts.EventID := "";
     contracts.EventChecksum := "" |}.


(** Three stored items, two of them of service [svcA]. *)
Definition threeDocuments : list bson.M :=
  [ <["_id" := VObjectID 1%N]> (objectFields "u-1" sampleObject);
    <["_id" := VObjectID 2%N]> (objectFields "u-2" otherObject);
    <["_id" := VObjectID 3%N]> (objectFields "u-3" sampleObject) ].

Definition twoServices : Database :=
  {| documents := threeDocuments; nextID := 4%N; network := [];
     cursorFault := None; roundTrips := [] |}.

(** The same collection when the next call runs into the deadline. *)
Definition twoServicesUnreachable : Database :=
  {| documents := threeDocuments; nextID := 4%N;
     network := [Some DeadlineExceeded];
     cursorFault := None; roundTrips := [] |}.

(** The same collection when the next cursor breaks after one document. *)
Definition twoServicesBrokenCursor : Database :=
  {| documents := threeDocuments; nextID := 4%N; network := [];
     cursorFault := Some (1, CommandError "cursor not found");
     roundTrips := [] |}.

(** The same collection with a document whose [retryCount] is a string. *)
Definition twoServicesBadDocument : Database :=
  {| documents := threeDocuments
       ++ [ <["retryCount" := VString "three"]>
              (<["_id" := VObjectID 4%N]> (objectFields "u-4" sampleObject)) ];
     nextID := 5%N; network := []; cursorFault := None; roundTrips := [] |}.

(** A configuration without credentials, and two runs of the bootstrap
    up to the moment the caller leaves its [select]: one where the connect
    has failed before the deadline fires, one where the deadline fires
    while the connect is still under way. *)
Definition sampleConfig : db.Configuration :=
  {| db.Host := "localhost"; db.Port := 27017; db.Username := "";
     db.Password := ""; db.DatabaseName := "application-service";
     db.Timeout := 5000 |}.





(** ** Vocabulary of the further statements *)

(** The [_id] values of the stored documents, in store order. *)
Definition ids (db : Database) : list (option Value) :=
  map (λ d, d !! "_id") (documents db).

(** The collection as the server keeps it when this client is its only
    writer: every document under an assigned ObjectID, no two under the
    same. *)
Definition wellKept (db : Database) : Prop :=
  Forall assigned (documents db) ∧ NoDup (ids db).

(** The document an item is kept as under an opaque id. *)
Definition storedDocument (id : primitive.ObjectID) (uuid : string)
    (o : contracts.StoredObject) : bson.M :=
  <["_id" := VObjectID id]> (objectFields uuid o).

(** The model struct that document decodes to. *)
Definition modelOf (id : primitive.ObjectID) (uuid : string)
    (o : contracts.StoredObject) : models.StoredObject :=
  {| models.ObjectID := id; models.UUID := uuid;
     models.AppServiceKey := contracts.AppServiceKey o;
     models.Payload := contracts.Payload o;
     models.RetryCount := contracts.RetryCount o;
     models.PipelinePosition := contracts.PipelinePosition o;
     models.Version := contracts.Version o;
     models.CorrelationID := contracts.CorrelationID o;
     models.EventID := contracts.EventID o;
     models.EventChecksum := contracts.EventChecksum o |}.

(** An object under another identifier, and with another retry count. *)
Definition withID (id : string) (o : contracts.StoredObject)
  : contracts.StoredObject :=
  {| contracts.ID := id;
     contracts.AppServiceKey := contracts.AppServiceKey o;
     contracts.Payload := contracts.Payload o;
     contracts.RetryCount := contracts.RetryCount o;
     contracts.PipelinePosition := contracts.PipelinePosition o;
     contracts.Version := contracts.Version o;
     contracts.CorrelationID := contracts.CorrelationID o;
     contracts.EventID := contracts.EventID o;
     contracts.EventChecksum := contracts.EventChecksum o |}.

Definition withRetryCount (count : Z) (o : contracts.StoredObject)
  : contracts.StoredObject :=
  {| contracts.ID := contracts.ID o;
     contracts.AppServiceKey := contracts.AppServiceKey o;
     contracts.Payload := contracts.Payload o;
     contracts.RetryCount := count;
     contracts.PipelinePosition := contracts.PipelinePosition o;
     contracts.Version := contracts.Version o;
     contracts.CorrelationID := contracts.CorrelationID o;
     contracts.EventID := contracts.EventID o;
     contracts.EventChecksum := contracts.EventChecksum o |}.

(** What a retrieval of the service's items yields when every document
    decodes: one object per document, in store order. *)
Definition retrievable `{codec : models.IdentifierCodec} (key : string)
    (db : Database) : list contracts.StoredObject :=
  map (λ d, models.ToContract (models.unmarshal d models.zero).1)
      (matching key db).


(** What the events so far must contain for the goroutine to stand where it
    stands, and for the caller to hold a client. *)
Definition progress_invariant (evs : list bootstrap.Event) (w : bootstrap.World)
  : Prop :=
  (bootstrap.task w = bootstrap.AtPing ∨ bootstrap.task w = bootstrap.AtDatabase
   ∨ bootstrap.task w = bootstrap.AtSend →
   bootstrap.ConnectSucceeds ∈ evs)
  ∧ (bootstrap.task w = bootstrap.AtDatabase ∨ bootstrap.task w = bootstrap.AtSend →
     bootstrap.PingSucceeds ∈ evs)
  ∧ (∀ c e, bootstrap.caller w = bootstrap.Returned (Some c) e →
       bootstrap.ConnectSucceeds ∈ evs ∧ bootstrap.PingSucceeds ∈ evs).

(** A run in which the deadline fires first and the connect succeeds late. *)
Definition lateConnect : list bootstrap.Event :=
  [ bootstrap.DeadlineElapses; bootstrap.ReceiveDone; bootstrap.ConnectSucceeds;
    bootstrap.PingSucceeds; bootstrap.DatabaseOpened ].

(** A run in which everything succeeds before the deadline. *)
Definition promptConnect : list bootstrap.Event :=
  [ bootstrap.ConnectSucceeds; bootstrap.PingSucceeds; bootstrap.DatabaseOpened;
    bootstrap.ReceiveNotify ].

(** ** The pipeline context (appcontext/context.go) *)

Module coremodels.

(** [models.Reading] and [models.Event] of go-mod-core-contracts, with the
    fields [PushToCoreData] sets; the others keep their zero values. *)
Record Reading : Type := {
  Value : string;
  Origin : Z;
  Device : string;
  Name : string
}.

Record Event : Type := {
  ID : string;
  EventDevice : string;
  EventOrigin : Z;
  Readings : list Reading
}.

End coremodels.

Module appcontext.

(** [Context], with the fields its methods read or write.  The logging
    client and the event client are its collaborators: their calls are
    logged in the world below, which also answers them. *)
Record Context : Type := {
  EventID : string;
  EventChecksum : string;
  CorrelationID : string;
  OutputData : list Byte.byte
}.

(** The calls on the collaborators.  The context value handed to the event
    client is represented by the correlation id it carries under
    [clients.CorrelationHeader]. *)
Inductive Call : Type :=
| Debug (msg : string)
| MarkPushed (id : string) (correlation : string)
| MarkPushedByChecksum (checksum : string) (correlation : string)
| Add (event : coremodels.Event) (correlation : string).

(** The surroundings of a call: the log of calls made, what the clock
    ([time.Now().UnixNano()]) and the UUID generator ([uuid.New()]) give,
    and how the event client answers. *)
Record World : Type := {
  calls : list Call;
  now : Z;
  newUUID : string;
  markPushed : string → string → option error;
  markPushedByChecksum : string → string → option error;
  add : coremodels.Event → string → string * option error
}.

Definition log (c : Call) (w : World) : World :=
  {| calls := calls w ++ [c]; now := now w; newUUID := newUUID w;
     markPushed := markPushed w;
     markPushedByChecksum := markPushedByChecksum w; add := add w |}.

(** [func (context *Context) Complete(output []byte)] *)
Definition Complete (output : list Byte.byte) (context : Context) : Context :=
  {| EventID := EventID context; EventChecksum := EventChecksum context;
     CorrelationID := CorrelationID context; OutputData := output |}.

(** [func (context *Context) MarkAsPushed() error] *)
Definition MarkAsPushed (context : Context) (w : World) : option error * World :=
  let w := log (Debug "Marking event as pushed") w in
  if decide (EventID context ≠ "") then
    (markPushed w (EventID context) (CorrelationID context),
     log (MarkPushed (EventID context) (CorrelationID context)) w)
  else if decide (EventChecksum context ≠ "") then
    (markPushedByChecksum w (EventChecksum context) (CorrelationID context),
     log (MarkPushedByChecksum (EventChecksum context) (CorrelationID context)) w)
  else
    (Some (errors_New "No EventID or EventChecksum Provided"), w).

Section PushToCoreData.
(** [util.CoerceType] is defined in package [util], outside context.go: it
    is a parameter here, over whatever values ([interface{}]) it takes. *)
Variable Any : Type.
Variable CoerceType : Any → list Byte.byte * option error.

(** [func (context *Context) PushToCoreData(deviceName string,
     readingName string, value interface{})], which returns a
    [*models.Event] and an [error]. *)
Definition PushToCoreData (context : Context) (deviceName readingName : string)
    (value : Any) (w : World) : (option coremodels.Event * option error) * World :=
  let w := log (Debug "Pushing to CoreData") w in
  let now := now w in
  match CoerceType value with
  | (_, Some err) => ((None, Some err), w)
  | (val, None) =>
    let newReading :=
      {| coremodels.Value := String.string_of_list_byte val;
         coremodels.Origin := now;
         coremodels.Device := deviceName;
         coremodels.Name := readingName |} in
    let readings := [] ++ [newReading] in
    let newEdgeXEvent :=
      {| coremodels.ID := "";
         coremodels.EventDevice := deviceName;
         coremodels.EventOrigin := now;
         coremodels.Readings := readings |} in
    let correlation := newUUID w in
    let w' := log (Add newEdgeXEvent correlation) w in
    match add w newEdgeXEvent correlation with
    | (_, Some err) => ((None, Some err), w')
    | (result, None) =>
      ((Some {| coremodels.ID := result;
                coremodels.EventDevice := coremodels.EventDevice newEdgeXEvent;
                coremodels.EventOrigin := coremodels.EventOrigin newEdgeXEvent;
                coremodels.Readings := coremodels.Readings newEdgeXEvent |},
        None), w')
    end
  end.

End PushToCoreData.

End appcontext.

(** A context of a JSON event with a checksum as well, one without any
    identity, and surroundings whose event client accepts everything. *)
Definition jsonContext : appcontext.Context :=
  {| appcontext.EventID := "event-1"; appcontext.EventChecksum := "0bad";
     appcontext.CorrelationID := "corr-1"; appcontext.OutputData := [] |}.

Definition cborContext : appcontext.Context :=
  {| appcontext.EventID := ""; appcontext.EventChecksum := "0bad";
     appcontext.CorrelationID := "corr-2"; appcontext.OutputData := [] |}.

Definition anonymousContext : appcontext.Context :=
  {| appcontext.EventID := ""; appcontext.EventChecksum := "";
     appcontext.CorrelationID := "corr-3"; appcontext.OutputData := [] |}.

Definition quietWorld : appcontext.World :=
  {| appcontext.calls := []; appcontext.now := 1570000000000000000;
     appcontext.newUUID := sampleUUID;
     appcontext.markPushed := λ _ _, None;
     appcontext.markPushedByChecksum := λ _ _, None;
     appcontext.add := λ _ _, ("event-2", None) |}.

(** Surroundings whose event client refuses to add. *)
Definition refusingWorld : appcontext.World :=
  {| appcontext.calls := []; appcontext.now := 1570000000000000000;
     appcontext.newUUID := sampleUUID;
     appcontext.markPushed := λ _ _, None;
     appcontext.markPushedByChecksum := λ _ _, None;
     appcontext.add := λ _ _, ("", Some (CommandError "core data is down")) |}.

(** A stand-in for [util.CoerceType] over byte strings: it refuses the
    empty value. *)
Definition sampleCoerce (value : list Byte.byte) : list Byte.byte * option error :=
  match value with
  | [] => ([], Some (errors_New "empty value"))
  | _ => (value, None)
  end.

(** An item that claims the opaque id of the stored one. *)
Definition clashingObject : contracts.StoredObject :=
  {| contracts.ID := idOne;
     contracts.AppServiceKey := "svcA";
     contracts.Payload := [Byte.x03];
     contracts.RetryCount := 7;
     contracts.PipelinePosition := 2;
     contracts.Version := "1";
     contracts.CorrelationID := "";
     contracts.EventID := "";
     contracts.EventChecksum := "" |}.




(** ** Properties of the store client *)

Section StoreClientFacts.
Context `{codec : models.IdentifierCodec}.

(** *** The shape of [Store] on each of its three paths *)

Lemma Store_decode_error o db objID uuid e :
  models.FromContractId (contracts.ID o) = (objID, uuid, Some e) →
  Store o db = (("", Some e), db).
Proof. intros Hid. unfold Store. rewrite Hid. reflexivity. Qed.

Lemma Store_assigned o db objID uuid :
  models.FromContractId (contracts.ID o) = (objID, uuid, None) →
  objID ≠ primitive.NilObjectID →
  Store o db =
  (r <- InsertOne (<["_id" := VObjectID objID]> (objectFields uuid o)) ;;
   ret (insertOutcome r)) db.
Proof.
  intros Hid Hne. unfold Store. rewrite Hid.
  destruct (decide (objID = primitive.NilObjectID)) as [Heq|_]; [contradiction|].
  unfold bind. destruct (InsertOne _ db) as [[e|res] db']; [reflexivity|].
  unfold insertOutcome. destruct (InsertedID res); reflexivity.
Qed.

Lemma Store_unassigned o db uuid :
  models.FromContractId (contracts.ID o) = (primitive.NilObjectID, uuid, None) →
  Store o db =
  (result <- FindOne (byUUID uuid) ;;
   if negb (bool_decide ((Decode result models.zero).1 = models.zero))
   then ret ("", Some DuplicateObject)
   else (r <- InsertOne (objectFields uuid o) ;; ret (insertOutcome r))) db.
Proof.
  intros Hid. unfold Store. rewrite Hid.
  destruct (decide (primitive.NilObjectID = primitive.NilObjectID)) as [_|Hne];
    [|contradiction].
  unfold bind at 1 3. fold (byUUID uuid).
  destruct (FindOne (byUUID uuid) db) as [result db1].
  destruct (Decode result models.zero) as [m derr]; cbn [fst].
  destruct (negb (bool_decide (m = models.zero))); [reflexivity|].
  unfold bind. fold (objectFields uuid o).
  destruct (InsertOne _ db1) as [[e|res] db2]; [reflexivity|].
  unfold insertOutcome. destruct (InsertedID res); reflexivity.
Qed.

End StoreClientFacts.

(** *** Facts about the driver model *)

Section DriverFacts.

Lemma roundTrip_eq c db : roundTrip c db = (nextFate db, afterCall c db).
Proof. reflexivity. Qed.

Lemma served_next n db : served (S n) db → nextFate db = None.
Proof.
  unfold served, nextFate. destruct (network db) as [|fate rest]; [reflexivity|].
  simpl. intros H. by inversion H.
Qed.

Lemma served_weaken n db : served (S n) db → served n db.
Proof.
  unfold served. generalize (network db) as net.
  induction n as [|n IH]; intros net H; [constructor|].
  destruct net as [|fate rest]; [constructor|].
  change (take (S n) (fate :: rest)) with (fate :: take n rest).
  change (take (S (S n)) (fate :: rest)) with (fate :: take (S n) rest) in H.
  inversion H; subst. constructor; [reflexivity|]. by apply IH.
Qed.

Lemma served_afterCall n c db : served (S n) db → served n (afterCall c db).
Proof.
  unfold served. simpl. destruct (network db) as [|fate rest]; simpl.
  - intros _. destruct n; constructor.
  - intros H. by inversion H.
Qed.

Lemma matches_spec filter d :
  matches filter d = true ↔ ∀ k v, filter !! k = Some v → d !! k = Some v.
Proof. unfold matches. rewrite bool_decide_eq_true. reflexivity. Qed.

Lemma matches_singleton k v d :
  matches {[ k := v ]} d = true ↔ d !! k = Some v.
Proof.
  rewrite matches_spec. split.
  - intros H. apply H. apply lookup_singleton_eq.
  - intros H k' v' Hk. apply lookup_singleton_Some in Hk as [<- <-]. exact H.
Qed.

Lemma matches_singleton_false k v d :
  matches {[ k := v ]} d = false ↔ d !! k ≠ Some v.
Proof.
  rewrite <- matches_singleton. destruct (matches {[ k := v ]} d); split; congruence.
Qed.

Lemma FindOne_failed filter db e :
  nextFate db = Some e →
  FindOne filter db =
  ({| err := Some e; rdr := ∅ |}, afterCall (FindOneCall filter) db).
Proof.
  intros H. unfold FindOne, bind. rewrite roundTrip_eq, H. reflexivity.
Qed.

Lemma FindOne_served filter db :
  nextFate db = None →
  FindOne filter db =
  (match List.find (matches filter) (documents db) with
   | Some d => {| err := None; rdr := d |}
   | None => {| err := Some ErrNoDocuments; rdr := ∅ |}
   end, afterCall (FindOneCall filter) db).
Proof.
  intros H. unfold FindOne, bind. rewrite roundTrip_eq, H.
  unfold get. change (documents (afterCall (FindOneCall filter) db)) with (documents db).
  destruct (List.find (matches filter) (documents db)); reflexivity.
Qed.

Lemma InsertOne_generated document db :
  document !! "_id" = None →
  nextFate db = None →
  freshID (VObjectID (nextID db)) db →
  InsertOne document db =
  (inr {| InsertedID := VObjectID (nextID db) |},
   afterInsert document (VObjectID (nextID db)) db).
Proof.
  intros Hid Hnet Hfresh. unfold InsertOne, afterInsert. rewrite Hid.
  unfold bind, NewObjectID, ret. rewrite roundTrip_eq.
  unfold nextFate in *. simpl in *. rewrite Hnet. unfold get. simpl.
  replace (existsb _ (documents db)) with false; [reflexivity|].
  symmetry. apply not_true_is_false. intros Hex.
  apply existsb_exists in Hex as (d & Hin & Hd).
  unfold hasID in Hd. apply bool_decide_eq_true in Hd.
  unfold freshID in Hfresh.
  rewrite Forall_forall in Hfresh. apply list_elem_of_In in Hin.
  by apply (Hfresh d Hin).
Qed.

Lemma InsertOne_explicit document db id :
  document !! "_id" = Some id →
  nextFate db = None →
  freshID id db →
  InsertOne document db =
  (inr {| InsertedID := id |}, afterInsert document id db).
Proof.
  intros Hid Hnet Hfresh. unfold InsertOne, afterInsert. rewrite Hid.
  unfold bind, ret. rewrite roundTrip_eq.
  unfold nextFate in *. simpl in *. rewrite Hnet. unfold get. simpl.
  replace (existsb _ (documents db)) with false; [reflexivity|].
  symmetry. apply not_true_is_false. intros Hex.
  apply existsb_exists in Hex as (d & Hin & Hd).
  unfold hasID in Hd. apply bool_decide_eq_true in Hd.
  unfold freshID in Hfresh.
  rewrite Forall_forall in Hfresh. apply list_elem_of_In in Hin.
  by apply (Hfresh d Hin).
Qed.

(** A failed insertion reports the failure of its round trip as it is
    and stores nothing. *)
Lemma InsertOne_failed document db e :
  nextFate db = Some e →
  ∃ db', InsertOne document db = (inl e, db')
         ∧ documents db' = documents db
         ∧ issued db db' [InsertOneCall document].
Proof.
  intros Hnet. unfold InsertOne, issued.
  destruct (document !! "_id") as [v|];
    unfold bind, ret, NewObjectID; rewrite roundTrip_eq;
    unfold nextFate in *; simpl in *; rewrite Hnet;
    eexists; (split; [reflexivity|]); split; reflexivity.
Qed.

End DriverFacts.

(** *** Facts about decoding *)

Section DecodeFacts.


Lemma decodeFields_cons key dec rest d m :
  models.decodeFields ((key, dec) :: rest) d m =
  match d !! key with
  | None => models.decodeFields rest d m
  | Some v =>
    match dec v m with
    | Some m' => models.decodeFields rest d m'
    | None => (m, Some (DecodeError key))
    end
  end.
Proof. reflexivity. Qed.



(** A value of the wrong type under [_id] stops the decoding at once. *)
Lemma unmarshal_bad_id d v :
  d !! "_id" = Some v → (∀ id, v ≠ VObjectID id) →
  models.unmarshal d models.zero = (models.zero, Some (DecodeError "_id")).
Proof.
  intros Hid Hv. unfold models.unmarshal, models.fieldDecoders.
  rewrite decodeFields_cons, Hid.
  destruct v; try reflexivity. by destruct (Hv o).
Qed.

Lemma Hex_length id : String.length (primitive.Hex id) = 24.
Proof.
  unfold primitive.Hex.
  assert (H : ∀ k n acc, String.length (primitive.hexDigits k n acc)
                         = k + String.length acc).
  { induction k as [|k IH]; intros n acc; simpl; [reflexivity|].
    rewrite IH. simpl. lia. }
  rewrite H. reflexivity.
Qed.

Lemma Hex_nonempty id : primitive.Hex id ≠ "".
Proof.
  intros H. pose proof (Hex_length id) as Hl. rewrite H in Hl. discriminate.
Qed.

Lemma objectFields_no_id uuid o : objectFields uuid o !! "_id" = None.
Proof. reflexivity. Qed.

Lemma objectFields_uuid uuid o : objectFields uuid o !! "uuid" = Some (VString uuid).
Proof. reflexivity. Qed.

End DecodeFacts.

(** *** Duplicate rejection *)

(** *** The sample codec is lossless, and a bare hexadecimal id is not *)

Section CodecFacts.

Lemma append_cons c (s t : string) : String c s +:+ t = String c (s +:+ t).
Proof. reflexivity. Qed.

Lemma append_assoc (s t u : string) : (s +:+ t) +:+ u = s +:+ (t +:+ u).
Proof.
  induction s as [|c s IH]; [reflexivity|].
  rewrite !append_cons. f_equal. exact IH.
Qed.

Lemma hexDigits_acc k n acc :
  primitive.hexDigits k n acc = primitive.hexDigits k n "" +:+ acc.
Proof.
  revert n acc. induction k as [|k IH]; intros n acc; [reflexivity|].
  cbn [primitive.hexDigits].
  rewrite (IH _ (String _ acc)), (IH _ (String _ "")).
  rewrite append_assoc. reflexivity.
Qed.

Lemma unhexDigit_hexDigit m :
  (m < 16)%N → unhexDigit (primitive.hexDigit m) = Some m.
Proof.
  intros Hm.
  assert (H : m ∈ [0; 1; 2; 3; 4; 5; 6; 7; 8; 9; 10; 11; 12; 13; 14; 15]%N).
  { rewrite !elem_of_cons. lia. }
  rewrite !elem_of_cons in H.
  repeat (destruct H as [->|H]; [reflexivity|]). by apply elem_of_nil in H.
Qed.

Lemma splitHex_hexDigits k j n t a :
  splitHex (k + j) (primitive.hexDigits k n "" +:+ t) a
  = splitHex j t (a * 16 ^ N.of_nat k + n mod 16 ^ N.of_nat k)%N.
Proof.
  revert j n t a. induction k as [|k IH]; intros j n t a.
  - simpl. f_equal. rewrite N.mod_1_r. lia.
  - cbn [primitive.hexDigits]. rewrite hexDigits_acc, append_assoc.
    replace (S k + j) with (k + S j) by lia. rewrite IH.
    rewrite append_cons. change ("" +:+ t) with t. cbn [splitHex].
    rewrite unhexDigit_hexDigit by (apply N.mod_lt; discriminate).
    f_equal. rewrite Nat2N.inj_succ, N.pow_succ_r'.
    rewrite (N.Div0.mod_mul_r n 16). lia.
Qed.

Lemma compositeCodec_lossless : models.lossless compositeCodec.
Proof.
  intros o u Ho. unfold models.FromContractId, models.Encode, compositeCodec.
  destruct (decide (primitive.Hex o +:+ u = "")) as [Hempty|_].
  - pose proof (Hex_length o) as Hlen.
    destruct (primitive.Hex o); [discriminate Hlen|discriminate Hempty].
  - unfold primitive.Hex. rewrite (splitHex_hexDigits 24 0).
    cbn [splitHex]. rewrite N.mul_0_l, N.add_0_l.
    rewrite N.mod_small by exact Ho. reflexivity.
Qed.

(** Whatever the codec, if it is lossless then the bare hexadecimal id
    cannot be the encoding of the id with each UUID. *)
Lemma Hex_is_no_lossless_encoding `{codec : models.IdentifierCodec} o u1 u2 :
  models.lossless codec → primitive.valid o → u1 ≠ u2 →
  ¬ (primitive.Hex o = models.Encode o u1 ∧ primitive.Hex o = models.Encode o u2).
Proof.
  intros Hcodec Ho Hne [H1 H2].
  pose proof (Hcodec o u1 Ho) as Hd1. pose proof (Hcodec o u2 Ho) as Hd2.
  rewrite <- H1 in Hd1. rewrite <- H2 in Hd2. congruence.
Qed.

End CodecFacts.

Section Duplicates.
Context `{codec : models.IdentifierCodec}.

Lemma find_filter_nil {A} (p : A → bool) l :
  List.filter p l = [] → List.find p l = None.
Proof.
  induction l as [|x l IH]; simpl; [reflexivity|].
  destruct (p x); [discriminate|exact IH].
Qed.




(** The lookup is served and finds nothing: [Store] stores the document
    under the id the driver generates and returns that id in hex. *)
Lemma Store_fresh o db uuid :
  models.FromContractId (contracts.ID o) = (primitive.NilObjectID, uuid, None) →
  served 2 db →
  withUUID uuid db = [] →
  freshID (VObjectID (nextID db)) db →
  Store o db =
  ((primitive.Hex (nextID db), None),
   afterInsert (objectFields uuid o) (VObjectID (nextID db))
               (afterCall (FindOneCall (byUUID uuid)) db)).
Proof.
  intros Hid Hnet Hnone Hfresh. rewrite (Store_unassigned o db uuid Hid).
  unfold bind. rewrite (FindOne_served _ _ (served_next _ _ Hnet)).
  rewrite (find_filter_nil _ _ Hnone). unfold Decode. cbn [err rdr fst].
  rewrite bool_decide_eq_true_2 by reflexivity. cbn [negb].
  rewrite InsertOne_generated.
  - reflexivity.
  - apply objectFields_no_id.
  - eapply served_next, served_afterCall, Hnet.
  - exact Hfresh.
Qed.

End Duplicates.

Section DuplicateRejection.
Context `{codec : models.IdentifierCodec}.

Lemma served_afterInsert n document id db :
  served (S n) db → served n (afterInsert document id db).
Proof. apply (served_afterCall n (InsertOneCall document)). Qed.


End DuplicateRejection.


(** *** What each driver call adds to the log *)

Section Logs.

Lemma FindOne_state filter db :
  (FindOne filter db).2 = afterCall (FindOneCall filter) db.
Proof.
  unfold FindOne, bind. rewrite roundTrip_eq.
  destruct (nextFate db); [reflexivity|].
  unfold get. destruct (List.find _ _); reflexivity.
Qed.

Lemma InsertOne_issued document db :
  issued db (InsertOne document db).2 [InsertOneCall document].
Proof.
  unfold InsertOne, issued, bind, NewObjectID, ret, get, setDocuments.
  destruct (document !! "_id"); rewrite roundTrip_eq;
    unfold nextFate; simpl; destruct (default None (head (network db)));
    try reflexivity; simpl; destruct (existsb _ _); reflexivity.
Qed.

Lemma Find_issued filter db :
  issued db (Find filter db).2 [FindCall filter]
  ∧ documents (Find filter db).2 = documents db.
Proof.
  unfold Find, issued, bind, ret, get, takeCursorFault. rewrite roundTrip_eq.
  destruct (nextFate db); [split; reflexivity|]. simpl.
  destruct (cursorFault db) as [[n e]|]; split; reflexivity.
Qed.

Lemma UpdateOne_issued filter update db :
  issued db (UpdateOne filter update db).2 [UpdateOneCall filter update].
Proof.
  unfold UpdateOne, issued, bind, ret, get, setDocuments. rewrite roundTrip_eq.
  destruct (nextFate db); [reflexivity|]. simpl.
  destruct (rewriteFirst _ _ _); reflexivity.
Qed.


Lemma DeleteOne_issued filter db :
  issued db (DeleteOne filter db).2 [DeleteOneCall filter].
Proof.
  unfold DeleteOne, issued, bind, ret, get, setDocuments. rewrite roundTrip_eq.
  destruct (nextFate db); [reflexivity|]. simpl.
  destruct (removeFirst _ _); reflexivity.
Qed.

End Logs.

(** *** What an insertion can do *)

Section Insertions.
Context `{codec : models.IdentifierCodec}.

(** The id an insertion stores the document under: its own [_id], or the
    one the driver generates. *)
Lemma InsertOne_cases document db :
  let id := default (VObjectID (nextID db)) (document !! "_id") in
  (∃ e, (InsertOne document db).1 = inl e
        ∧ documents (InsertOne document db).2 = documents db)
  ∨ ((InsertOne document db).1 = inr {| InsertedID := id |}
     ∧ documents (InsertOne document db).2
       = documents db ++ [<["_id" := id]> document]).
Proof.
  unfold InsertOne, bind, NewObjectID, ret, get, setDocuments.
  destruct (document !! "_id") as [v|]; rewrite roundTrip_eq; cbn [default];
    unfold nextFate; simpl;
    (destruct (default None (head (network db))) as [e|];
     [left; by exists e|]);
    simpl; (destruct (existsb _ _);
            [left; by eexists|right; split; reflexivity]).
Qed.

(** The type assertion on [InsertedID] cannot fail for the documents
    [Store] sends: a successful call returns hexadecimal digits. *)
Lemma Store_success_is_hex o db id db' :
  Store o db = ((id, None), db') → ∃ oid, id = primitive.Hex oid.
Proof.
  destruct (models.FromContractId (contracts.ID o)) as [[objID uuid] [e|]] eqn:Hid.
  - rewrite (Store_decode_error o db objID uuid e Hid). discriminate.
  - destruct (decide (objID = primitive.NilObjectID)) as [->|Hne].
    + rewrite (Store_unassigned o db uuid Hid). unfold bind.
      destruct (FindOne (byUUID uuid) db) as [result db1].
      destruct (negb _); [discriminate|].
      destruct (InsertOne_cases (objectFields uuid o) db1) as [(e & He & _)|[Hr _]];
        destruct (InsertOne (objectFields uuid o) db1) as [r db2];
        cbn [fst] in *; subst r; unfold ret; cbn [insertOutcome InsertedID].
      * discriminate.
      * rewrite objectFields_no_id. cbn [default]. intros [= <- _]. by eexists.
    + rewrite (Store_assigned o db objID uuid Hid Hne). unfold bind.
      set (doc := <["_id" := VObjectID objID]> (objectFields uuid o)).
      assert (Hdoc : doc !! "_id" = Some (VObjectID objID))
        by apply lookup_insert_eq.
      destruct (InsertOne_cases doc db) as [(e & He & _)|[Hr _]];
        destruct (InsertOne doc db) as [r db2]; cbn [fst] in *; subst r;
        unfold ret; cbn [insertOutcome InsertedID].
      * discriminate.
      * rewrite Hdoc. cbn [default]. intros [= <- _]. by eexists.
Qed.

(** [Store] keeps the collection one of documents with assigned ids, as
    long as the generator does not hand out the zero id. *)
Lemma Store_keeps_assigned o db :
  nextID db ≠ primitive.NilObjectID →
  Forall assigned (documents db) →
  Forall assigned (documents (Store o db).2).
Proof.
  intros Hnext Hall.
  destruct (models.FromContractId (contracts.ID o)) as [[objID uuid] [e|]] eqn:Hid.
  - by rewrite (Store_decode_error o db objID uuid e Hid).
  - destruct (decide (objID = primitive.NilObjectID)) as [->|Hne].
    + rewrite (Store_unassigned o db uuid Hid). unfold bind.
      pose proof (FindOne_state (byUUID uuid) db) as Hstate.
      destruct (FindOne (byUUID uuid) db) as [result db1]. cbn [snd] in Hstate.
      subst db1. destruct (negb _); [exact Hall|].
      set (db1 := afterCall (FindOneCall (byUUID uuid)) db).
      destruct (InsertOne_cases (objectFields uuid o) db1) as [(e & _ & Hd)|[_ Hd]];
        destruct (InsertOne (objectFields uuid o) db1) as [r db2];
        unfold ret; cbn [snd] in *; rewrite Hd; [exact Hall|].
      apply Forall_app. split; [exact Hall|]. repeat constructor.
      exists (nextID db). split; [|exact Hnext].
      rewrite objectFields_no_id. cbn [default]. apply lookup_insert_eq.
    + rewrite (Store_assigned o db objID uuid Hid Hne). unfold bind.
      set (doc := <["_id" := VObjectID objID]> (objectFields uuid o)).
      destruct (InsertOne_cases doc db) as [(e & _ & Hd)|[_ Hd]];
        destruct (InsertOne doc db) as [r db2]; unfold ret; cbn [snd] in *;
        rewrite Hd; [exact Hall|].
      apply Forall_app. split; [exact Hall|]. repeat constructor.
      exists objID. split; [|exact Hne].
      assert (Hdoc : doc !! "_id" = Some (VObjectID objID))
        by apply lookup_insert_eq.
      rewrite Hdoc. cbn [default]. apply lookup_insert_eq.
Qed.

End Insertions.

(** *** The identifier [Store] returns, and the document it sends *)

Section StoreResult.
Context `{codec : models.IdentifierCodec}.

(** C2, amended.  When the identifier decodes to no opaque id, the lookup
    finds no document with the UUID and the insertion succeeds, [Store]
    returns the 24 hexadecimal digits of the opaque id the store has
    assigned to the new document, and nothing else: the UUID takes no part
    in the returned string. *)
Theorem Store_returns_hex_of_assigned_id
    (o : contracts.StoredObject) (uuid : string) (db : Database) :
  models.FromContractId (contracts.ID o) = (primitive.NilObjectID, uuid, None) →
  served 2 db →
  withUUID uuid db = [] →
  freshID (VObjectID (nextID db)) db →
  ∃ db', Store o db = ((primitive.Hex (nextID db), None), db')
         ∧ documents db' =
           documents db ++ [<["_id" := VObjectID (nextID db)]> (objectFields uuid o)]
         ∧ String.length (Store o db).1.1 = 24.
Proof.
  intros Hid Hnet Hnone Hfresh.
  rewrite (Store_fresh o db uuid Hid Hnet Hnone Hfresh).
  eexists. split; [reflexivity|]. split; [reflexivity|]. apply Hex_length.
Qed.

(** C3. The document [Store] sends has no [_id] field when the decoded
    opaque id is the zero value, and carries the decoded id under [_id]
    when it is assigned.  On the assigned path the insertion is the only
    round trip: nothing is looked up first, and a served insertion under
    an id that is free stores the document under that very id. *)
Theorem Store_document_opaque_id
    (o : contracts.StoredObject) (objID : primitive.ObjectID) (uuid : string)
    (db : Database) :
  models.FromContractId (contracts.ID o) = (objID, uuid, None) →
  let db' := (Store o db).2 in
  let restored := <["_id" := VObjectID objID]> (objectFields uuid o) in
  (objID = primitive.NilObjectID →
     objectFields uuid o !! "_id" = None
     ∧ (issued db db' [FindOneCall (byUUID uuid)]
        ∨ issued db db' [FindOneCall (byUUID uuid);
                         InsertOneCall (objectFields uuid o)]))
  ∧
  (objID ≠ primitive.NilObjectID →
     restored !! "_id" = Some (VObjectID objID)
     ∧ issued db db' [InsertOneCall restored]
     ∧ (served 1 db → freshID (VObjectID objID) db →
        (Store o db).1 = (primitive.Hex objID, None)
        ∧ documents db' = documents db ++ [restored])).
Proof.
  intros Hid db' restored. split.
  - intros ->. split; [reflexivity|]. subst db'.
    rewrite (Store_unassigned o db uuid Hid). unfold bind.
    pose proof (FindOne_state (byUUID uuid) db) as Hstate.
    destruct (FindOne (byUUID uuid) db) as [result db1]. simpl in Hstate. subst db1.
    destruct (negb _).
    + left. reflexivity.
    + right.
      pose proof (InsertOne_issued (objectFields uuid o)
                    (afterCall (FindOneCall (byUUID uuid)) db)) as Hins.
      destruct (InsertOne _ _) as [r db2]. unfold issued in *. simpl in *.
      rewrite Hins. rewrite <- app_assoc. reflexivity.
  - intros Hne. split; [apply lookup_insert_eq|]. subst db'.
    rewrite (Store_assigned o db objID uuid Hid Hne). fold restored. split.
    + unfold bind. pose proof (InsertOne_issued restored db) as Hins.
      destruct (InsertOne restored db) as [r db1]. exact Hins.
    + intros Hnet Hfresh. unfold bind.
      rewrite (InsertOne_explicit restored db (VObjectID objID)).
      * split; [reflexivity|]. unfold afterInsert; cbn [snd ret documents].
        unfold restored. rewrite insert_insert_eq. reflexivity.
      * apply lookup_insert_eq.
      * exact (served_next _ _ Hnet).
      * exact Hfresh.
Qed.

End StoreResult.

Lemma Store_returns_hex_of_assigned_id_witness :
  ∃ db', Store (codec := compositeCodec) sampleObject emptyDatabase
         = (("000000000000000000000001", None), db')
         ∧ documents db' =
           [<["_id" := VObjectID 1%N]> (objectFields sampleUUID sampleObject)]
         ∧ String.length
             (Store (codec := compositeCodec) sampleObject emptyDatabase).1.1 = 24.
Proof.
  apply (Store_returns_hex_of_assigned_id (codec := compositeCodec)
           sampleObject sampleUUID emptyDatabase).
  - reflexivity.
  - constructor.
  - reflexivity.
  - constructor.
Defined.

(** C2, as stated, fails: with the composite codec, [Store] on an empty
    collection assigns opaque id 1 to the sample object and returns the
    bare hexadecimal id, which is not the encoding of that id together with
    the object's UUID. *)
Lemma Store_id_is_not_composite :
  models.FromContractId (IdentifierCodec := compositeCodec)
    (contracts.ID sampleObject) = (primitive.NilObjectID, sampleUUID, None)
  ∧ withUUID sampleUUID emptyDatabase = []
  ∧ (Store (codec := compositeCodec) sampleObject emptyDatabase).1
    = ("000000000000000000000001", None)
  ∧ documents (Store (codec := compositeCodec) sampleObject emptyDatabase).2
    = [<["_id" := VObjectID 1%N]> (objectFields sampleUUID sampleObject)]
  ∧ models.Encode (IdentifierCodec := compositeCodec) 1%N sampleUUID
    = "000000000000000000000001" +:+ sampleUUID
  ∧ (Store (codec := compositeCodec) sampleObject emptyDatabase).1.1
    ≠ models.Encode (IdentifierCodec := compositeCodec) 1%N sampleUUID.
Proof.
  repeat split; try reflexivity. vm_compute. discriminate.
Qed.

Lemma Store_document_opaque_id_witness :
  (objectFields sampleUUID sampleObject !! "_id" = None
   ∧ issued emptyDatabase
       (Store (codec := compositeCodec) sampleObject emptyDatabase).2
       [FindOneCall (byUUID sampleUUID);
        InsertOneCall (objectFields sampleUUID sampleObject)])
  ∧
  (let restored := <["_id" := VObjectID 42%N]> (objectFields sampleUUID restoredObject) in
   restored !! "_id" = Some (VObjectID 42%N)
   ∧ issued storedOnce
       (Store (codec := compositeCodec) restoredObject storedOnce).2
       [InsertOneCall restored]
   ∧ (Store (codec := compositeCodec) restoredObject storedOnce).1
     = ("00000000000000000000002a", None)
   ∧ documents (Store (codec := compositeCodec) restoredObject storedOnce).2
     = documents storedOnce ++ [restored]).
Proof.
  split.
  - destruct (Store_document_opaque_id (codec := compositeCodec)
                sampleObject primitive.NilObjectID sampleUUID emptyDatabase
                eq_refl) as [Hnil _].
    destruct (Hnil eq_refl) as [Hid _]. split; [exact Hid | reflexivity].
  - destruct (Store_document_opaque_id (codec := compositeCodec)
                restoredObject 42%N sampleUUID storedOnce eq_refl) as [_ Hset].
    assert (Hne : (42%N : primitive.ObjectID) ≠ primitive.NilObjectID) by discriminate.
    destruct (Hset Hne) as (Hid & Hlog & Hrun).
    assert (Hserved : served 1 storedOnce) by constructor.
    assert (Hfresh : freshID (VObjectID 42%N) storedOnce).
    { repeat constructor. vm_compute. discriminate. }
    destruct (Hrun Hserved Hfresh) as [Hres Hdocs].
    cbv zeta. auto.
Defined.

(** *** The lookup of [Store] never fails the call *)

Section LookupFailure.
Context `{codec : models.IdentifierCodec}.

(** C9. On the path without opaque id, [Store] drops any error of the UUID
    lookup and of the decoding of its result.  A lookup that fails, with
    whatever error, is followed by the insertion, exactly as a lookup
    that finds nothing is; after a lookup that finds a document only the
    decoded struct counts, not the error of the decoding.  So when the
    lookup fails and the insertion is served, the item is stored even
    though documents with its UUID may exist. *)
Theorem Store_lookup_failure_discarded
    (o : contracts.StoredObject) (uuid : string) (db : Database) :
  models.FromContractId (contracts.ID o) = (primitive.NilObjectID, uuid, None) →
  let db1 := afterCall (FindOneCall (byUUID uuid)) db in
  (∀ e, nextFate db = Some e → Store o db = insertion uuid o db1)
  ∧ (nextFate db = None → withUUID uuid db = [] →
     Store o db = insertion uuid o db1)
  ∧ (∀ d, nextFate db = None →
       List.find (matches (byUUID uuid)) (documents db) = Some d →
       Store o db =
       if bool_decide ((models.unmarshal d models.zero).1 = models.zero)
       then insertion uuid o db1
       else (("", Some DuplicateObject), db1))
  ∧ (∀ e, nextFate db = Some e → nextFate db1 = None →
       freshID (VObjectID (nextID db)) db →
       ∃ db', Store o db = ((primitive.Hex (nextID db), None), db')
              ∧ length (withUUID uuid db') = S (length (withUUID uuid db))).
Proof.
  intros Hid db1.
  assert (Hfail : ∀ e, nextFate db = Some e → Store o db = insertion uuid o db1).
  { intros e He. rewrite (Store_unassigned o db uuid Hid). unfold bind at 1.
    rewrite (FindOne_failed _ _ _ He). reflexivity. }
  split; [exact Hfail|]. split; [|split].
  - intros Hnet Hnone. rewrite (Store_unassigned o db uuid Hid). unfold bind at 1.
    rewrite (FindOne_served _ _ Hnet), (find_filter_nil _ _ Hnone). reflexivity.
  - intros d Hnet Hfind. rewrite (Store_unassigned o db uuid Hid). unfold bind at 1.
    rewrite (FindOne_served _ _ Hnet), Hfind. unfold Decode. cbn [err rdr].
    destruct (bool_decide _); reflexivity.
  - intros e He Hnet1 Hfresh. rewrite (Hfail e He). unfold insertion, bind.
    rewrite InsertOne_generated;
      [|apply objectFields_no_id|exact Hnet1|exact Hfresh].
    eexists. split; [reflexivity|].
    unfold withUUID, afterInsert. cbn [documents db1 afterCall roundTrip snd].
    rewrite List.filter_app, length_app. simpl.
    replace (matches (byUUID uuid) _) with true; [simpl; lia|].
    symmetry. apply matches_singleton.
    rewrite lookup_insert_ne by discriminate. apply objectFields_uuid.
Qed.

End LookupFailure.

Lemma Store_lookup_failure_discarded_witness :
  withUUID sampleUUID storedOnceFlaky ≠ []
  ∧ ∃ db', Store (codec := compositeCodec) sampleObject storedOnceFlaky
           = (("000000000000000000000002", None), db')
           ∧ length (withUUID sampleUUID db') = 2.
Proof.
  split.
  { intros H. apply (f_equal length) in H. vm_compute in H. discriminate H. }
  destruct (Store_lookup_failure_discarded (codec := compositeCodec)
              sampleObject sampleUUID storedOnceFlaky eq_refl)
    as (_ & _ & _ & Hdup).
  apply (Hdup (CommandError "connection reset by peer")).
  - reflexivity.
  - reflexivity.
  - repeat constructor. vm_compute. discriminate.
Defined.

(** *** Updates and removals *)

Section Updates.
Context `{codec : models.IdentifierCodec}.

(** C5. [Update] of an object with an empty [ID] fails with the
    missing-identifier error and leaves the database as it was: no round
    trip is logged, no document changes. *)
Theorem Update_empty_ID (o : contracts.StoredObject) (db : Database) :
  contracts.ID o = "" →
  ∃ e, Update o db = (Some e, db)
       ∧ MissingIdentifier e
       ∧ e = errors_New "update argument object does not have an UUID".
Proof.
  intros Hid. unfold Update. rewrite Hid. simpl.
  eexists. split; [reflexivity|]. split; [left|]; reflexivity.
Qed.

Lemma rewriteFirst_length p f docs :
  length (rewriteFirst p f docs).1 = length docs.
Proof.
  induction docs as [|d rest IH]; simpl; [reflexivity|].
  destruct (p d); simpl; [reflexivity|].
  destruct (rewriteFirst p f rest) as [rest' n]. simpl in *. by rewrite IH.
Qed.

Lemma rewriteFirst_lookup p f docs i d' :
  (rewriteFirst p f docs).1 !! i = Some d' →
  ∃ d, docs !! i = Some d ∧ (d' = d ∨ (p d = true ∧ d' = f d)).
Proof.
  revert i. induction docs as [|d rest IH]; intros i; simpl; [discriminate|].
  destruct (p d) eqn:Hp.
  - destruct i as [|i]; simpl.
    + intros [= <-]. exists d. auto.
    + intros H. exists d'. auto.
  - destruct (rewriteFirst p f rest) as [rest' n]. simpl in *.
    destruct i as [|i]; simpl.
    + intros [= <-]. exists d. auto.
    + apply IH.
Qed.

Lemma rewriteFirst_none p f docs :
  Forall (λ d, p d = false) docs → rewriteFirst p f docs = (docs, 0%Z).
Proof.
  induction 1 as [|d rest Hd _ IH]; simpl; [reflexivity|].
  by rewrite Hd, IH.
Qed.

Lemma removeFirst_none p docs :
  Forall (λ d, p d = false) docs → removeFirst p docs = (docs, 0%Z).
Proof.
  induction 1 as [|d rest Hd _ IH]; simpl; [reflexivity|].
  by rewrite Hd, IH.
Qed.

Lemma applyUpdate_set k v d : applyUpdate (set_ {[ k := v ]}) d = <[k := v]> d.
Proof. simpl. symmetry. apply insert_union_singleton_l. Qed.

Lemma rewriteFirst_ext p f g docs :
  (∀ d, f d = g d) → rewriteFirst p f docs = rewriteFirst p g docs.
Proof.
  intros Hfg. induction docs as [|d rest IH]; simpl; [reflexivity|].
  by rewrite Hfg, IH.
Qed.

(** A served [UpdateRetryCount] with a well-formed identifier. *)
Lemma UpdateRetryCount_served id count db objID uuid :
  id ≠ "" →
  models.FromContractId id = (objID, uuid, None) →
  nextFate db = None →
  UpdateRetryCount id count db =
  (None,
   {| documents :=
        (rewriteFirst (matches (byID objID)) (insert "retryCount" (VInt count))
           (documents db)).1;
      nextID := nextID db; network := tail (network db);
      cursorFault := cursorFault db;
      roundTrips := roundTrips db
        ++ [UpdateOneCall (byID objID) (set_ {[ "retryCount" := VInt count ]})] |}).
Proof.
  intros Hne Hid Hnet. unfold UpdateRetryCount.
  destruct (decide (id = "")) as [|_]; [contradiction|]. rewrite Hid.
  unfold bind at 1. unfold UpdateOne, bind. rewrite roundTrip_eq, Hnet.
  unfold get. fold (byID objID).
  change (documents (afterCall _ db)) with (documents db).
  rewrite (rewriteFirst_ext _ _ (insert "retryCount" (VInt count)))
    by (intros d; apply applyUpdate_set).
  destruct (rewriteFirst _ _ (documents db)) as [docs n]. reflexivity.
Qed.

(** C7. [UpdateRetryCount] with an empty id fails with the
    missing-identifier error and touches nothing.  With a non-empty id
    that decodes, and its round trip served, it succeeds whether or not a
    document matches; it sends one update, filtered by the decoded opaque
    id, that sets [retryCount] alone: the collection keeps its length and
    order, at most the first document with that id changes, and in that
    document every field but [retryCount] keeps its value. *)
Theorem UpdateRetryCount_sets_only_retryCount
    (id : string) (count : Z) (db : Database) :
  (id = "" →
     ∃ e, UpdateRetryCount id count db = (Some e, db) ∧ MissingIdentifier e)
  ∧
  (∀ objID uuid,
     id ≠ "" →
     models.FromContractId id = (objID, uuid, None) →
     served 1 db →
     let db' := (UpdateRetryCount id count db).2 in
     (UpdateRetryCount id count db).1 = None
     ∧ issued db db'
         [UpdateOneCall (byID objID) (set_ {[ "retryCount" := VInt count ]})]
     ∧ documents db' =
       (rewriteFirst (matches (byID objID)) (insert "retryCount" (VInt count))
          (documents db)).1
     ∧ length (documents db') = length (documents db)
     ∧ (∀ i d', documents db' !! i = Some d' →
          ∃ d, documents db !! i = Some d
               ∧ (d' = d ∨ (d !! "_id" = Some (VObjectID objID)
                            ∧ d' = <["retryCount" := VInt count]> d))
               ∧ ∀ k, k ≠ "retryCount" → d' !! k = d !! k)
     ∧ (freshID (VObjectID objID) db → documents db' = documents db)).
Proof.
  split.
  - intros ->. unfold UpdateRetryCount. simpl.
    eexists. split; [reflexivity|]. right. reflexivity.
  - intros objID uuid Hne Hid Hnet db'. subst db'.
    rewrite (UpdateRetryCount_served id count db objID uuid Hne Hid
               (served_next _ _ Hnet)).
    cbn [fst snd documents]. split; [reflexivity|]. split; [reflexivity|].
    split; [reflexivity|]. split; [apply rewriteFirst_length|]. split.
    + intros i d' Hd'.
      destruct (rewriteFirst_lookup _ _ _ _ _ Hd') as (d & Hd & Hcase).
      exists d. split; [exact Hd|]. destruct Hcase as [->|[Hm ->]].
      * split; [by left|]. reflexivity.
      * split.
        -- right. split; [|reflexivity]. by apply matches_singleton in Hm.
        -- intros k Hk. by rewrite lookup_insert_ne.
    + intros Hfresh. rewrite rewriteFirst_none; [reflexivity|].
      unfold freshID in Hfresh. eapply Forall_impl; [exact Hfresh|].
      intros d Hd. by apply matches_singleton_false.
Qed.

(** C10. [UpdateRetryCount] and [RemoveFromStore] make no use of the UUID
    segment: on two non-empty identifiers that decode to the same opaque
    id, whatever their UUIDs, each of them gives the same result and the
    same final state, and the one call it issues is filtered by the
    opaque id alone. *)
Theorem UUID_segment_ignored
    (id1 id2 : string) (objID : primitive.ObjectID) (uuid1 uuid2 : string)
    (count : Z) (db : Database) :
  id1 ≠ "" → id2 ≠ "" →
  models.FromContractId id1 = (objID, uuid1, None) →
  models.FromContractId id2 = (objID, uuid2, None) →
  UpdateRetryCount id1 count db = UpdateRetryCount id2 count db
  ∧ RemoveFromStore id1 db = RemoveFromStore id2 db
  ∧ issued db (UpdateRetryCount id1 count db).2
      [UpdateOneCall (byID objID) (set_ {[ "retryCount" := VInt count ]})]
  ∧ issued db (RemoveFromStore id1 db).2 [DeleteOneCall (byID objID)].
Proof.
  intros Hne1 Hne2 Hid1 Hid2. unfold UpdateRetryCount, RemoveFromStore.
  destruct (decide (id1 = "")) as [|_]; [contradiction|].
  destruct (decide (id2 = "")) as [|_]; [contradiction|].
  rewrite Hid1, Hid2. fold (byID objID).
  split; [reflexivity|]. split; [reflexivity|]. split.
  - unfold bind. pose proof (UpdateOne_issued (byID objID)
                               (set_ {[ "retryCount" := VInt count ]}) db) as H.
    destruct (UpdateOne _ _ db) as [[e|r] db']; exact H.
  - unfold bind. pose proof (DeleteOne_issued (byID objID) db) as H.
    destruct (DeleteOne _ db) as [[e|r] db']; exact H.
Qed.

End Updates.

Lemma Update_empty_ID_witness :
  ∃ e, Update (codec := compositeCodec) unidentifiedObject storedOnce
       = (Some e, storedOnce)
       ∧ MissingIdentifier e
       ∧ e = errors_New "update argument object does not have an UUID".
Proof.
  apply (Update_empty_ID (codec := compositeCodec) unidentifiedObject storedOnce).
  reflexivity.
Defined.

Lemma UpdateRetryCount_sets_only_retryCount_witness :
  (∃ e, UpdateRetryCount (codec := compositeCodec) "" 3 storedOnce
        = (Some e, storedOnce) ∧ MissingIdentifier e)
  ∧ (UpdateRetryCount (codec := compositeCodec) idOne 3 storedOnce).1 = None
  ∧ documents (UpdateRetryCount (codec := compositeCodec) idOne 3 storedOnce).2
    = [<["retryCount" := VInt 3]>
         (<["_id" := VObjectID 1%N]> (objectFields sampleUUID sampleObject))]
  ∧ (UpdateRetryCount (codec := compositeCodec) idOne 3 emptyDatabase).1 = None
  ∧ documents (UpdateRetryCount (codec := compositeCodec) idOne 3 emptyDatabase).2
    = [].
Proof.
  destruct (UpdateRetryCount_sets_only_retryCount (codec := compositeCodec)
              "" 3 storedOnce) as [Hempty _].
  destruct (UpdateRetryCount_sets_only_retryCount (codec := compositeCodec)
              idOne 3 storedOnce) as [_ Hone].
  destruct (UpdateRetryCount_sets_only_retryCount (codec := compositeCodec)
              idOne 3 emptyDatabase) as [_ Hnone].
  assert (Hne : idOne ≠ "") by discriminate.
  assert (Hid : models.FromContractId (IdentifierCodec := compositeCodec) idOne
                = (1%N, sampleUUID, None)) by reflexivity.
  destruct (Hone 1%N sampleUUID Hne Hid ltac:(constructor))
    as (Hres & _ & Hdocs & _).
  destruct (Hnone 1%N sampleUUID Hne Hid ltac:(constructor))
    as (Hres0 & _ & _ & _ & _ & Hsame).
  split; [exact (Hempty eq_refl)|]. split; [exact Hres|].
  split; [rewrite Hdocs; reflexivity|]. split; [exact Hres0|].
  apply Hsame. constructor.
Defined.

Lemma UUID_segment_ignored_witness :
  UpdateRetryCount (codec := compositeCodec) idOne 3 storedOnce
  = UpdateRetryCount (codec := compositeCodec) idOneOther 3 storedOnce
  ∧ RemoveFromStore (codec := compositeCodec) idOne storedOnce
    = RemoveFromStore (codec := compositeCodec) idOneOther storedOnce
  ∧ issued storedOnce
      (UpdateRetryCount (codec := compositeCodec) idOne 3 storedOnce).2
      [UpdateOneCall (byID 1%N) (set_ {[ "retryCount" := VInt 3 ]})]
  ∧ issued storedOnce (RemoveFromStore (codec := compositeCodec) idOne storedOnce).2
      [DeleteOneCall (byID 1%N)].
Proof.
  apply (UUID_segment_ignored (codec := compositeCodec) idOne idOneOther 1%N
           sampleUUID "00000000-0000-0000-0000-000000000000" 3 storedOnce).
  - discriminate.
  - discriminate.
  - reflexivity.
  - reflexivity.
Defined.

(** *** Retrieval is all or nothing *)

Section Retrieval.
Context `{codec : models.IdentifierCodec}.

Lemma forNext_decoded docs acc :
  Forall decodes docs →
  forNext docs acc
  = inr (acc ++ map (λ d, (models.unmarshal d models.zero).1) docs).
Proof.
  intros Hall. revert acc.
  induction Hall as [|d rest Hd _ IH]; intros acc; simpl.
  - by rewrite app_nil_r.
  - unfold decodes in Hd.
    destruct (models.unmarshal d models.zero) as [p e]. simpl in *. subst e.
    rewrite IH, <- app_assoc. reflexivity.
Qed.

Lemma forNext_failed docs acc d :
  d ∈ docs → ¬ decodes d →
  ∃ e d', forNext docs acc = inl e ∧ d' ∈ docs
          ∧ (models.unmarshal d' models.zero).2 = Some e.
Proof.
  intros Hin Hbad. revert acc.
  induction docs as [|d0 rest IH]; intros acc; [by apply elem_of_nil in Hin|].
  simpl. destruct (models.unmarshal d0 models.zero) as [p [e|]] eqn:Hd0.
  - exists e, d0. split; [reflexivity|]. split; [left|by rewrite Hd0].
  - apply elem_of_cons in Hin as [->|Hin].
    + exfalso. apply Hbad. unfold decodes. by rewrite Hd0.
    + destruct (IH Hin (acc ++ [p])) as (e & d' & Hrun & Hd' & He).
      exists e, d'. split; [exact Hrun|]. split; [by right|exact He].
Qed.

Lemma RetrieveFromStore_failed key db e :
  nextFate db = Some e →
  (RetrieveFromStore key db).1 = ([], Some e).
Proof.
  intros Hnet. unfold RetrieveFromStore, bind at 1. unfold Find, bind.
  rewrite roundTrip_eq, Hnet. reflexivity.
Qed.

Lemma RetrieveFromStore_served key db :
  nextFate db = None →
  (RetrieveFromStore key db).1 =
  match forNext (delivered key db) [] with
  | inl e => ([], Some e)
  | inr modelSlice =>
    match cursorFault db with
    | Some (_, e) => ([], Some e)
    | None => (map models.ToContract modelSlice, None)
    end
  end.
Proof.
  intros Hnet. unfold RetrieveFromStore, bind at 1. unfold Find, bind.
  rewrite roundTrip_eq, Hnet. unfold get, takeCursorFault, delivered, matching.
  fold (byAppServiceKey key). cbn [afterCall roundTrip snd cursorFault documents].
  destruct (cursorFault db) as [[n e]|]; unfold ret; cbn [batch failure];
    destruct (forNext _ []); reflexivity.
Qed.

(** C6. [RetrieveFromStore] returns objects or an error, never both.  A
    [Find] whose round trip fails, a delivered document that does not
    decode, and a cursor that breaks each make it return that error and
    no object; when nothing fails it returns, without error, one object
    per document of the application service, in store order. *)
Theorem RetrieveFromStore_all_or_nothing (key : string) (db : Database) :
  let result := (RetrieveFromStore key db).1 in
  (∀ e, result.2 = Some e → result.1 = [])
  ∧ (∀ e, nextFate db = Some e → result = ([], Some e))
  ∧ (nextFate db = None →
     ∀ d, d ∈ delivered key db → ¬ decodes d →
       ∃ e d', result = ([], Some e) ∧ d' ∈ delivered key db
               ∧ (models.unmarshal d' models.zero).2 = Some e)
  ∧ (nextFate db = None →
     ∀ n e, cursorFault db = Some (n, e) →
       Forall decodes (delivered key db) → result = ([], Some e))
  ∧ (nextFate db = None → cursorFault db = None →
     Forall decodes (matching key db) →
     result =
     (map (λ d, models.ToContract (models.unmarshal d models.zero).1)
          (matching key db), None)
     ∧ length result.1 = length (matching key db)).
Proof.
  intros result. subst result. split; [|split; [|split; [|split]]].
  - intros e. destruct (nextFate db) as [e0|] eqn:Hnet.
    + rewrite (RetrieveFromStore_failed key db e0 Hnet). reflexivity.
    + rewrite (RetrieveFromStore_served key db Hnet).
      destruct (forNext _ []); [reflexivity|].
      destruct (cursorFault db) as [[n e1]|]; [reflexivity|discriminate].
  - apply RetrieveFromStore_failed.
  - intros Hnet d Hin Hbad. rewrite (RetrieveFromStore_served key db Hnet).
    destruct (forNext_failed _ [] d Hin Hbad) as (e & d' & Hrun & Hd' & He).
    rewrite Hrun. by exists e, d'.
  - intros Hnet n e Hfault Hall. rewrite (RetrieveFromStore_served key db Hnet).
    rewrite (forNext_decoded _ [] Hall), Hfault. reflexivity.
  - intros Hnet Hfault Hall. rewrite (RetrieveFromStore_served key db Hnet).
    unfold delivered. rewrite Hfault, (forNext_decoded _ [] Hall).
    cbn [app fst]. rewrite map_map. split; [reflexivity|].
    by rewrite length_map.
Qed.

End Retrieval.

(** *** Failures reach the caller as they are *)

Section Failures.
Context `{codec : models.IdentifierCodec}.


Lemma FromContract_decoded o objID uuid :
  models.FromContractId (contracts.ID o) = (objID, uuid, None) →
  ∃ model, models.FromContract o = (model, None)
           ∧ models.ObjectID model = objID ∧ models.UUID model = uuid.
Proof.
  intros H. unfold models.FromContract. rewrite H.
  eexists. split; [reflexivity|]. split; reflexivity.
Qed.


End Failures.

Lemma RetrieveFromStore_all_or_nothing_witness :
  (RetrieveFromStore (codec := compositeCodec) "svcA" twoServicesUnreachable).1
  = ([], Some DeadlineExceeded)
  ∧ (∃ e d', (RetrieveFromStore (codec := compositeCodec) "svcA"
                twoServicesBadDocument).1 = ([], Some e)
             ∧ d' ∈ delivered "svcA" twoServicesBadDocument
             ∧ (models.unmarshal d' models.zero).2 = Some e)
  ∧ (RetrieveFromStore (codec := compositeCodec) "svcA" twoServicesBrokenCursor).1
    = ([], Some (CommandError "cursor not found"))
  ∧ length (RetrieveFromStore (codec := compositeCodec) "svcA" twoServices).1.1 = 2
  ∧ (RetrieveFromStore (codec := compositeCodec) "svcA" twoServices).1.2 = None.
Proof.
  destruct (RetrieveFromStore_all_or_nothing (codec := compositeCodec)
              "svcA" twoServicesUnreachable) as (_ & Hconn & _).
  destruct (RetrieveFromStore_all_or_nothing (codec := compositeCodec)
              "svcA" twoServicesBadDocument) as (_ & _ & Hdec & _).
  destruct (RetrieveFromStore_all_or_nothing (codec := compositeCodec)
              "svcA" twoServicesBrokenCursor) as (_ & _ & _ & Hiter & _).
  destruct (RetrieveFromStore_all_or_nothing (codec := compositeCodec)
              "svcA" twoServices) as (_ & _ & _ & _ & Hall).
  split; [exact (Hconn DeadlineExceeded eq_refl)|]. split.
  { apply (Hdec eq_refl
             (<["retryCount" := VString "three"]>
                (<["_id" := VObjectID 4%N]> (objectFields "u-4" sampleObject)))).
    - computed.
    - computed. }
  split.
  { apply (Hiter eq_refl 1 (CommandError "cursor not found") eq_refl).
    computed. }
  destruct Hall as [Hres Hlen]; [reflexivity|reflexivity|computed|].
  split; [rewrite Hlen; reflexivity|]. rewrite Hres. reflexivity.
Defined.


(** ** Properties of the bootstrap *)

Module bootstrap_facts.
Import bootstrap.

Section Runs.
Variable config : db.Configuration.





End Runs.

End bootstrap_facts.



(** ** Further properties of the store client *)

Section StoreOutcomes.
Context `{codec : models.IdentifierCodec}.

(** An insertion either fails and stores nothing, or stores the document
    under an id no stored document had. *)
Lemma InsertOne_outcomes document db :
  let id := default (VObjectID (nextID db)) (document !! "_id") in
  (∃ e, (InsertOne document db).1 = inl e
        ∧ documents (InsertOne document db).2 = documents db)
  ∨ ((InsertOne document db).1 = inr {| InsertedID := id |}
     ∧ documents (InsertOne document db).2
       = documents db ++ [<["_id" := id]> document]
     ∧ freshID id db).
Proof.
  unfold InsertOne, bind, NewObjectID, ret, get, setDocuments.
  destruct (document !! "_id") as [v|]; rewrite roundTrip_eq; cbn [default];
    unfold nextFate; simpl;
    (destruct (default None (head (network db))) as [e|];
     [left; by exists e|]);
    simpl; (destruct (existsb _ _) eqn:Hex;
            [left; by eexists|right; split; [reflexivity|split; [reflexivity|]]]).
  all: unfold freshID; apply Forall_forall; intros d Hd Heq;
    apply not_true_iff_false in Hex; apply Hex; apply existsb_exists;
    exists d; split; [by apply list_elem_of_In|];
    unfold hasID; by apply bool_decide_eq_true.
Qed.

Lemma InsertOne_taken document db id :
  document !! "_id" = Some id →
  nextFate db = None →
  Exists (λ d, d !! "_id" = Some id) (documents db) →
  InsertOne document db
  = (inl (WriteException 11000), afterCall (InsertOneCall document) db).
Proof.
  intros Hid Hnet Htaken. unfold InsertOne. rewrite Hid.
  unfold bind, ret. rewrite roundTrip_eq, Hnet. unfold get.
  change (documents (afterCall (InsertOneCall document) db)) with (documents db).
  replace (existsb (hasID id) (documents db)) with true; [reflexivity|].
  symmetry. apply existsb_exists. apply Exists_exists in Htaken as (d & Hin & Hd).
  exists d. split; [by apply list_elem_of_In|].
  unfold hasID. by apply bool_decide_eq_true.
Qed.

(** The two ways a call of [Store] can end. *)
Lemma Store_outcomes o db :
  (∃ e, (Store o db).1 = ("", Some e)
        ∧ documents (Store o db).2 = documents db)
  ∨ (∃ oid uuid,
       (Store o db).1 = (primitive.Hex oid, None)
       ∧ documents (Store o db).2 = documents db ++ [storedDocument oid uuid o]
       ∧ freshID (VObjectID oid) db
       ∧ (models.FromContractId (contracts.ID o)).1.2 = uuid
       ∧ (oid = nextID db ∨ oid ≠ primitive.NilObjectID)).
Proof.
  destruct (models.FromContractId (contracts.ID o)) as [[objID uuid] [e|]] eqn:Hid.
  - left. exists e. by rewrite (Store_decode_error o db objID uuid e Hid).
  - destruct (decide (objID = primitive.NilObjectID)) as [->|Hne].
    + rewrite (Store_unassigned o db uuid Hid). unfold bind.
      pose proof (FindOne_state (byUUID uuid) db) as Hstate.
      destruct (FindOne (byUUID uuid) db) as [result db1]. cbn [snd] in Hstate.
      subst db1. destruct (negb _); [left; by eexists|].
      set (db1 := afterCall (FindOneCall (byUUID uuid)) db).
      destruct (InsertOne_outcomes (objectFields uuid o) db1)
        as [(e & He & Hd)|(Hr & Hd & Hf)];
        destruct (InsertOne (objectFields uuid o) db1) as [r db2];
        unfold ret; cbn [fst snd] in *; subst r; cbn [insertOutcome InsertedID].
      * left. by exists e.
      * right. exists (nextID db), uuid. revert Hd Hf.
        rewrite objectFields_no_id. cbn [default]. intros Hd Hf.
        split; [reflexivity|]. split; [exact Hd|]. split; [exact Hf|].
        split; [reflexivity|by left].
    + rewrite (Store_assigned o db objID uuid Hid Hne). unfold bind.
      set (doc := <["_id" := VObjectID objID]> (objectFields uuid o)).
      assert (Hdoc : doc !! "_id" = Some (VObjectID objID))
        by apply lookup_insert_eq.
      destruct (InsertOne_outcomes doc db) as [(e & He & Hd)|(Hr & Hd & Hf)];
        destruct (InsertOne doc db) as [r db2];
        unfold ret; cbn [fst snd] in *; subst r; cbn [insertOutcome InsertedID].
      * left. by exists e.
      * right. exists objID, uuid. revert Hd Hf. rewrite Hdoc. cbn [default].
        intros Hd Hf. split; [reflexivity|]. split.
        { rewrite Hd. unfold doc, storedDocument. by rewrite insert_insert_eq. }
        split; [exact Hf|]. split; [reflexivity|by right].
Qed.

(** X1. [Store] stores one document or none.  It ends either with an error,
    an empty identifier and the collection as it was, or without error,
    with the collection grown at its end by the one document of the item,
    kept under an id no stored document had, and with the 24 hexadecimal
    digits of that id as its result. *)
Theorem Store_stores_one_or_nothing (o : contracts.StoredObject) (db : Database) :
  (∃ e, (Store o db).1 = ("", Some e)
        ∧ documents (Store o db).2 = documents db)
  ∨ (∃ oid,
       (Store o db).1 = (primitive.Hex oid, None)
       ∧ documents (Store o db).2
         = documents db
           ++ [storedDocument oid (models.FromContractId (contracts.ID o)).1.2 o]
       ∧ freshID (VObjectID oid) db).
Proof.
  destruct (Store_outcomes o db) as [H|(oid & uuid & Hr & Hd & Hf & Hu & _)].
  - by left.
  - right. exists oid. rewrite Hu. auto.
Qed.

(** X2. [Store] keeps the collection well kept: when every stored document
    carries an assigned ObjectID and no two carry the same, and the
    generator does not hand out the zero id, the same holds after the
    call, whatever its outcome. *)
Theorem Store_keeps_collection_well_kept
    (o : contracts.StoredObject) (db : Database) :
  nextID db ≠ primitive.NilObjectID →
  wellKept db →
  wellKept (Store o db).2.
Proof.
  intros Hnext [Hall Hdup]. unfold wellKept, ids in *.
  destruct (Store_outcomes o db) as [(e & _ & Hd)|(oid & uuid & _ & Hd & Hf & _ & Hoid)];
    rewrite Hd; [by split|].
  split.
  - apply Forall_app. split; [exact Hall|]. repeat constructor.
    exists oid. split; [apply lookup_insert_eq|].
    destruct Hoid as [->|Hne]; assumption.
  - rewrite map_app. cbn [map]. unfold storedDocument at 1.
    rewrite lookup_insert_eq. apply NoDup_app. split; [exact Hdup|].
    split; [|apply NoDup_singleton].
    intros x Hx Hx'. apply list_elem_of_singleton in Hx'. subst x.
    apply list_elem_of_fmap in Hx as (d & Hd' & Hin).
    unfold freshID in Hf. rewrite Forall_forall in Hf.
    by apply (Hf d Hin).
Qed.

(** X3. On the restore path [Store] cannot overwrite: when the decoded
    opaque id is assigned and a stored document already has it, a served
    call fails with the store's duplicate-key write error after the one
    insertion attempt and leaves the collection as it was. *)
Theorem Store_restore_taken_id
    (o : contracts.StoredObject) (objID : primitive.ObjectID) (uuid : string)
    (db : Database) :
  models.FromContractId (contracts.ID o) = (objID, uuid, None) →
  objID ≠ primitive.NilObjectID →
  served 1 db →
  Exists (λ d, d !! "_id" = Some (VObjectID objID)) (documents db) →
  (Store o db).1 = ("", Some (WriteException 11000))
  ∧ documents (Store o db).2 = documents db
  ∧ issued db (Store o db).2 [InsertOneCall (storedDocument objID uuid o)].
Proof.
  intros Hid Hne Hnet Htaken. rewrite (Store_assigned o db objID uuid Hid Hne).
  unfold bind. fold (storedDocument objID uuid o).
  rewrite (InsertOne_taken _ db (VObjectID objID));
    [|apply lookup_insert_eq|exact (served_next _ _ Hnet)|exact Htaken].
  split; [reflexivity|]. split; reflexivity.
Qed.

End StoreOutcomes.

Section RetrievalMore.
Context `{codec : models.IdentifierCodec}.

Lemma unmarshal_stored id uuid o :
  models.unmarshal (storedDocument id uuid o) models.zero
  = (modelOf id uuid o, None).
Proof. reflexivity. Qed.

Lemma unmarshal_stored_retryCount id uuid o count :
  models.unmarshal (<["retryCount" := VInt count]> (storedDocument id uuid o))
                   models.zero
  = (modelOf id uuid (withRetryCount count o), None).
Proof. reflexivity. Qed.

Lemma ToContract_modelOf id uuid o :
  models.ToContract (modelOf id uuid o) = withID (models.Encode id uuid) o.
Proof. reflexivity. Qed.

Lemma decodeFields_keeps {A} (proj : models.StoredObject → A) fs d m :
  Forall (λ kd, ∀ v m0 m1, kd.2 v m0 = Some m1 → proj m1 = proj m0) fs →
  proj (models.decodeFields fs d m).1 = proj m.
Proof.
  intros Hfs. revert m. induction Hfs as [|[key dec] rest Hdec _ IH]; intros m.
  - reflexivity.
  - rewrite decodeFields_cons. destruct (d !! key) as [v|]; [|apply IH].
    destruct (dec v m) as [m'|] eqn:Hm; [|reflexivity].
    rewrite IH. exact (Hdec v m m' Hm).
Qed.

(** A document that decodes hands its [appServiceKey] over to the struct. *)
Lemma unmarshal_AppServiceKey d m key :
  models.unmarshal d models.zero = (m, None) →
  d !! "appServiceKey" = Some (VString key) →
  models.AppServiceKey m = key.
Proof.
  intros Hd Hkey. unfold models.unmarshal, models.fieldDecoders in Hd.
  rewrite decodeFields_cons in Hd.
  destruct (d !! "_id") as [v0|].
  - destruct v0; try discriminate Hd. revert Hd.
    rewrite decodeFields_cons.
    destruct (d !! "uuid") as [v1|].
    + destruct v1; try discriminate. rewrite decodeFields_cons, Hkey.
      intros Hd. apply (f_equal fst) in Hd. cbn [fst] in Hd. rewrite <- Hd.
      rewrite (decodeFields_keeps models.AppServiceKey); [reflexivity|].
      repeat constructor; intros v m0 m1; cbn [snd]; destruct v;
        intros [= <-]; reflexivity.
    + rewrite decodeFields_cons, Hkey.
      intros Hd. apply (f_equal fst) in Hd. cbn [fst] in Hd. rewrite <- Hd.
      rewrite (decodeFields_keeps models.AppServiceKey); [reflexivity|].
      repeat constructor; intros v m0 m1; cbn [snd]; destruct v;
        intros [= <-]; reflexivity.
  - revert Hd. rewrite decodeFields_cons.
    destruct (d !! "uuid") as [v1|].
    + destruct v1; try discriminate. rewrite decodeFields_cons, Hkey.
      intros Hd. apply (f_equal fst) in Hd. cbn [fst] in Hd. rewrite <- Hd.
      rewrite (decodeFields_keeps models.AppServiceKey); [reflexivity|].
      repeat constructor; intros v m0 m1; cbn [snd]; destruct v;
        intros [= <-]; reflexivity.
    + rewrite decodeFields_cons, Hkey.
      intros Hd. apply (f_equal fst) in Hd. cbn [fst] in Hd. rewrite <- Hd.
      rewrite (decodeFields_keeps models.AppServiceKey); [reflexivity|].
      repeat constructor; intros v m0 m1; cbn [snd]; destruct v;
        intros [= <-]; reflexivity.
Qed.

Lemma forNext_inr docs acc ms :
  forNext docs acc = inr ms →
  Forall decodes docs
  ∧ ms = acc ++ map (λ d, (models.unmarshal d models.zero).1) docs.
Proof.
  revert acc. induction docs as [|d rest IH]; intros acc; simpl.
  - intros [= <-]. split; [constructor|by rewrite app_nil_r].
  - destruct (models.unmarshal d models.zero) as [p [e|]] eqn:Hd; [discriminate|].
    intros Hrun. destruct (IH _ Hrun) as [Hall ->]. split.
    + constructor; [|exact Hall]. unfold decodes. by rewrite Hd.
    + by rewrite <- app_assoc.
Qed.

Lemma delivered_matching key db d :
  d ∈ delivered key db → d !! "appServiceKey" = Some (VString key).
Proof.
  intros Hin.
  assert (Hm : d ∈ matching key db).
  { unfold delivered in Hin. destruct (cursorFault db) as [[n e]|]; [|exact Hin].
    by apply (subseteq_take n). }
  unfold matching in Hm. apply list_elem_of_In, filter_In in Hm as [_ Hm].
  by apply matches_singleton in Hm.
Qed.

(** X4. Every object [RetrieveFromStore] returns belongs to the application
    service asked for: a successful retrieval yields only objects whose
    [AppServiceKey] is the key. *)
Theorem RetrieveFromStore_only_the_service
    (key : string) (db : Database) (objects : list contracts.StoredObject) :
  (RetrieveFromStore key db).1 = (objects, None) →
  Forall (λ o, contracts.AppServiceKey o = key) objects.
Proof.
  intros Hres. destruct (nextFate db) as [e|] eqn:Hnet.
  - rewrite (RetrieveFromStore_failed key db e Hnet) in Hres. discriminate.
  - rewrite (RetrieveFromStore_served key db Hnet) in Hres.
    destruct (forNext (delivered key db) []) as [e|ms] eqn:Hrun; [discriminate|].
    destruct (cursorFault db) as [[n e]|] eqn:Hfault; [discriminate|].
    injection Hres as <-. apply forNext_inr in Hrun as [Hall ->].
    cbn [app]. rewrite map_map. apply Forall_forall. intros o Ho.
    apply list_elem_of_fmap in Ho as (d & -> & Hd).
    rewrite Forall_forall in Hall. specialize (Hall d Hd). unfold decodes in Hall.
    destruct (models.unmarshal d models.zero) as [m e] eqn:Hm.
    cbn [fst snd] in *. subst e.
    change (models.AppServiceKey m = key).
    exact (unmarshal_AppServiceKey d m key Hm (delivered_matching key db d Hd)).
Qed.

(** X5. [RetrieveFromStore] only reads: whatever the outcome, the collection
    and the id generator are as before and the one round trip issued is
    the [Find] filtered by the application service key. *)
Theorem RetrieveFromStore_reads_only (key : string) (db : Database) :
  documents (RetrieveFromStore key db).2 = documents db
  ∧ nextID (RetrieveFromStore key db).2 = nextID db
  ∧ issued db (RetrieveFromStore key db).2 [FindCall (byAppServiceKey key)].
Proof.
  unfold RetrieveFromStore, bind at 1. fold (byAppServiceKey key).
  unfold Find, bind, ret, get, takeCursorFault, issued. rewrite roundTrip_eq.
  destruct (nextFate db); [by repeat split|]. cbn [afterCall roundTrip snd cursorFault].
  destruct (cursorFault db) as [[n e]|]; cbn [batch failure];
    destruct (forNext _ []); by repeat split.
Qed.

(** X6. What [Store] has stored, [RetrieveFromStore] returns.  After a
    served [Store] of an item without opaque id and with an unknown UUID,
    a served retrieval of the item's application service yields, after
    the objects that were there, the item itself: every field as it was
    stored, and as identifier the encoding of the assigned opaque id with
    the item's UUID. *)
Theorem Store_then_RetrieveFromStore
    (o : contracts.StoredObject) (uuid : string) (db : Database) :
  models.FromContractId (contracts.ID o) = (primitive.NilObjectID, uuid, None) →
  served 3 db →
  cursorFault db = None →
  withUUID uuid db = [] →
  freshID (VObjectID (nextID db)) db →
  Forall decodes (matching (contracts.AppServiceKey o) db) →
  (RetrieveFromStore (contracts.AppServiceKey o) (Store o db).2).1
  = (retrievable (contracts.AppServiceKey o) db
       ++ [withID (models.Encode (nextID db) uuid) o], None).
Proof.
  intros Hid Hnet Hfault Hnone Hfresh Hall.
  rewrite (Store_fresh o db uuid Hid (served_weaken _ _ Hnet) Hnone Hfresh).
  cbn [snd]. fold (storedDocument (nextID db) uuid o).
  set (db1 := afterInsert _ _ _).
  assert (Hnet1 : nextFate db1 = None).
  { eapply served_next, served_afterInsert, served_afterCall, Hnet. }
  assert (Hmatch : matching (contracts.AppServiceKey o) db1
                   = matching (contracts.AppServiceKey o) db
                       ++ [storedDocument (nextID db) uuid o]).
  { unfold matching, db1, afterInsert. cbn [documents afterCall roundTrip snd].
    rewrite List.filter_app. cbn [List.filter].
    replace (matches _ (<["_id" := _]> _)) with true; [reflexivity|].
    symmetry. by apply matches_singleton. }
  rewrite (RetrieveFromStore_served _ db1 Hnet1). unfold delivered.
  change (cursorFault db1) with (cursorFault db). rewrite Hfault, Hmatch.
  rewrite forNext_decoded.
  - cbn [app]. rewrite !map_app, map_map. cbn [map].
    rewrite unmarshal_stored. cbn [fst]. by rewrite ToContract_modelOf.
  - apply Forall_app. split; [exact Hall|]. repeat constructor.
Qed.

End RetrievalMore.

Section Replacements.
Context `{codec : models.IdentifierCodec}.

Lemma rewriteFirst_ext_on (p : bson.M → bool) f g docs :
  (∀ d, p d = true → f d = g d) → rewriteFirst p f docs = rewriteFirst p g docs.
Proof.
  intros Hfg. induction docs as [|d rest IH]; simpl; [reflexivity|].
  destruct (p d) eqn:Hp; [by rewrite Hfg|by rewrite IH].
Qed.

Lemma rewriteFirst_app_last (p : bson.M → bool) f l x :
  Forall (λ d, p d = false) l → p x = true →
  rewriteFirst p f (l ++ [x]) = (l ++ [f x], 1%Z).
Proof.
  induction 1 as [|d rest Hd _ IH]; intros Hx; simpl.
  - by rewrite Hx.
  - by rewrite Hd, IH.
Qed.

Lemma removeFirst_app_last (p : bson.M → bool) l x :
  Forall (λ d, p d = false) l → p x = true →
  removeFirst p (l ++ [x]) = (l, 1%Z).
Proof.
  induction 1 as [|d rest Hd _ IH]; intros Hx; simpl.
  - by rewrite Hx.
  - by rewrite Hd, IH.
Qed.

Lemma rewriteFirst_twice (p : bson.M → bool) f g docs :
  (∀ d, p (g d) = p d) →
  (rewriteFirst p f (rewriteFirst p g docs).1).1
  = (rewriteFirst p (λ d, f (g d)) docs).1.
Proof.
  intros Hg. induction docs as [|d rest IH]; simpl; [reflexivity|].
  destruct (p d) eqn:Hp; simpl.
  - by rewrite Hg, Hp.
  - destruct (rewriteFirst p g rest) as [rest' n]. simpl in *.
    rewrite Hp. destruct (rewriteFirst p f rest') as [rest'' n'].
    destruct (rewriteFirst p _ rest) as [rest3 n3]. simpl in *. by rewrite IH.
Qed.

Lemma removeFirst_others (p : bson.M → bool) docs :
  List.filter (λ d, negb (p d)) (removeFirst p docs).1
  = List.filter (λ d, negb (p d)) docs.
Proof.
  induction docs as [|d rest IH]; simpl; [reflexivity|].
  destruct (p d) eqn:Hp; simpl; [reflexivity|].
  destruct (removeFirst p rest) as [rest' n]. simpl in *. by rewrite Hp, IH.
Qed.

Lemma removeFirst_gone {A} (key : bson.M → A) (a : A) (p : bson.M → bool) docs :
  (∀ d, p d = true ↔ key d = a) →
  NoDup (map key docs) →
  Forall (λ d, key d ≠ a) (removeFirst p docs).1.
Proof.
  intros Hp. induction docs as [|d rest IH]; simpl; intros Hdup; [constructor|].
  apply NoDup_cons in Hdup as [Hd Hrest].
  destruct (p d) eqn:Hpd; simpl.
  - apply Hp in Hpd. apply Forall_forall. intros d' Hin Heq.
    apply Hd. rewrite Hpd, <- Heq. apply list_elem_of_fmap. by exists d'.
  - specialize (IH Hrest). destruct (removeFirst p rest) as [rest' n]. simpl in *.
    constructor; [|exact IH]. intros Heq. apply Hp in Heq. congruence.
Qed.

Lemma freshID_unmatched oid db :
  freshID (VObjectID oid) db →
  Forall (λ d, matches (byID oid) d = false) (documents db).
Proof.
  unfold freshID. intros H. eapply Forall_impl; [exact H|].
  intros d Hd. by apply matches_singleton_false.
Qed.

Lemma served_tail n db db' :
  network db' = tail (network db) → served (S n) db → served n db'.
Proof.
  intros Hnet H. unfold served. rewrite Hnet.
  exact (served_afterCall n (FindCall ∅) db H).
Qed.

(** A served replacement by a document that carries the id it is filtered
    by. *)
Lemma ReplaceOne_served oid replacement db :
  nextFate db = None →
  replacement !! "_id" = Some (VObjectID oid) →
  ∃ n, ReplaceOne (byID oid) replacement db
  = (inr {| MatchedCount := n |},
     {| documents :=
          (rewriteFirst (matches (byID oid)) (λ _, replacement) (documents db)).1;
        nextID := nextID db; network := tail (network db);
        cursorFault := cursorFault db;
        roundTrips := roundTrips db ++ [ReplaceOneCall (byID oid) replacement] |}).
Proof.
  intros Hnet Hid. unfold ReplaceOne, bind. rewrite roundTrip_eq, Hnet.
  unfold get. change (documents (afterCall _ db)) with (documents db).
  destruct (List.find (matches (byID oid)) (documents db)) as [d|] eqn:Hfind.
  - destruct (find_some _ _ Hfind) as [_ Hd]. apply matches_singleton in Hd.
    rewrite bool_decide_eq_false_2
      by (rewrite Hid, Hd; intros [_ Hc]; by apply Hc).
    rewrite (rewriteFirst_ext_on _ (keepID replacement) (λ _, replacement)).
    + destruct (rewriteFirst _ _ (documents db)) as [docs n]. by exists n.
    + intros d' Hd'. apply matches_singleton in Hd'. unfold keepID.
      rewrite Hd'. by apply insert_id.
  - exists 0%Z. unfold ret. f_equal.
    rewrite rewriteFirst_none; [reflexivity|].
    apply Forall_forall. intros d Hin.
    apply list_elem_of_In in Hin.
    exact (find_none _ _ Hfind d Hin).
Qed.

(** X7. A served [Update] of an item whose model carries an assigned opaque
    id succeeds, and it replaces, whole, the first stored document with
    that id by the projection of the model: the collection keeps its
    length and order and no other document changes. *)
Theorem Update_replaces_whole_document
    (o : contracts.StoredObject) (model : models.StoredObject) (db : Database) :
  contracts.ID o ≠ "" →
  models.FromContract o = (model, None) →
  models.ObjectID model ≠ primitive.NilObjectID →
  served 1 db →
  (Update o db).1 = None
  ∧ issued db (Update o db).2
      [ReplaceOneCall (byID (models.ObjectID model)) (models.marshal model)]
  ∧ documents (Update o db).2
    = (rewriteFirst (matches (byID (models.ObjectID model)))
         (λ _, models.marshal model) (documents db)).1
  ∧ length (documents (Update o db).2) = length (documents db).
Proof.
  intros Hne Hmodel Hoid Hnet. unfold Update.
  destruct (decide (contracts.ID o = "")) as [|_]; [contradiction|].
  rewrite Hmodel. fold (byID (models.ObjectID model)). unfold bind.
  destruct (ReplaceOne_served (models.ObjectID model) (models.marshal model) db
              (served_next _ _ Hnet)) as [n ->].
  - unfold models.marshal.
    destruct (decide (models.ObjectID model = primitive.NilObjectID));
      [contradiction|apply lookup_insert_eq].
  - cbn [fst snd ret documents]. split; [reflexivity|]. split; [reflexivity|].
    split; [reflexivity|apply rewriteFirst_length].
Qed.

(** X8. [Update] does not tell a caller that nothing was there to update:
    when no stored document has the opaque id of the model, a served call
    reports success and leaves the collection as it was. *)
Theorem Update_unmatched_is_silent
    (o : contracts.StoredObject) (model : models.StoredObject) (db : Database) :
  contracts.ID o ≠ "" →
  models.FromContract o = (model, None) →
  served 1 db →
  freshID (VObjectID (models.ObjectID model)) db →
  (Update o db).1 = None
  ∧ documents (Update o db).2 = documents db.
Proof.
  intros Hne Hmodel Hnet Hfresh. unfold Update.
  destruct (decide (contracts.ID o = "")) as [|_]; [contradiction|].
  rewrite Hmodel. fold (byID (models.ObjectID model)). unfold bind, ReplaceOne, bind.
  rewrite roundTrip_eq, (served_next _ _ Hnet). unfold get.
  change (documents (afterCall _ db)) with (documents db).
  replace (List.find _ (documents db)) with (@None bson.M); [by split|].
  symmetry. apply find_filter_nil.
  pose proof (freshID_unmatched _ _ Hfresh) as Hall.
  induction Hall as [|d rest Hd _ IH]; simpl; [reflexivity|by rewrite Hd].
Qed.

(** X9. A served [RemoveFromStore] succeeds whether or not a document
    matches.  It removes the first stored document with the decoded opaque
    id and nothing else: the other documents stay, in their order; when no
    two documents share an id, none with the removed id is left; when none
    had the id, the collection is as it was.  An empty id is refused
    before any round trip. *)
Theorem RemoveFromStore_removes_one (id : string) (db : Database) :
  (id = "" →
     ∃ e, RemoveFromStore id db = (Some e, db) ∧ MissingIdentifier e)
  ∧
  (∀ objID uuid,
     id ≠ "" →
     models.FromContractId id = (objID, uuid, None) →
     served 1 db →
     let db' := (RemoveFromStore id db).2 in
     (RemoveFromStore id db).1 = None
     ∧ issued db db' [DeleteOneCall (byID objID)]
     ∧ documents db' = (removeFirst (matches (byID objID)) (documents db)).1
     ∧ List.filter (λ d, negb (matches (byID objID) d)) (documents db')
       = List.filter (λ d, negb (matches (byID objID) d)) (documents db)
     ∧ (NoDup (ids db) → freshID (VObjectID objID) db')
     ∧ (freshID (VObjectID objID) db → documents db' = documents db)).
Proof.
  split.
  - intros ->. unfold RemoveFromStore. simpl.
    eexists. split; [reflexivity|]. right. reflexivity.
  - intros objID uuid Hne Hid Hnet db'. subst db'. unfold RemoveFromStore.
    destruct (decide (id = "")) as [|_]; [contradiction|]. rewrite Hid.
    fold (byID objID). unfold bind, DeleteOne, bind.
    rewrite roundTrip_eq, (served_next _ _ Hnet). unfold get.
    change (documents (afterCall _ db)) with (documents db).
    destruct (removeFirst (matches (byID objID)) (documents db)) as [docs n] eqn:Hrm.
    cbn [fst snd ret setDocuments documents].
    assert (Hdocs : docs = (removeFirst (matches (byID objID)) (documents db)).1)
      by (by rewrite Hrm).
    split; [reflexivity|]. split; [reflexivity|]. split; [reflexivity|].
    split; [rewrite Hdocs; apply removeFirst_others|]. split.
    + intros Hdup. unfold freshID. cbn [documents]. rewrite Hdocs.
      apply (removeFirst_gone (λ d, d !! "_id")); [|exact Hdup].
      intros d. apply matches_singleton.
    + intros Hfresh. rewrite Hdocs, removeFirst_none; [reflexivity|].
      by apply freshID_unmatched.
Qed.

End Replacements.

Section Compositions.
Context `{codec : models.IdentifierCodec}.

Lemma matches_byID_retryCount oid count d :
  matches (byID oid) (<["retryCount" := VInt count]> d) = matches (byID oid) d.
Proof.
  apply eq_true_iff_eq. unfold byID. rewrite !matches_singleton.
  by rewrite lookup_insert_ne.
Qed.

(** X10. The identifier [Store] returns undoes the [Store] when handed to
    [RemoveFromStore].  After a served [Store] of a new item, a served
    removal under the returned identifier, which the codec decodes to the
    assigned opaque id, succeeds and leaves the collection as it was
    before the [Store]. *)
Theorem Store_then_RemoveFromStore
    (o : contracts.StoredObject) (uuid uuid' : string) (db : Database) :
  models.FromContractId (contracts.ID o) = (primitive.NilObjectID, uuid, None) →
  models.FromContractId (primitive.Hex (nextID db)) = (nextID db, uuid', None) →
  served 3 db →
  withUUID uuid db = [] →
  freshID (VObjectID (nextID db)) db →
  (Store o db).1 = (primitive.Hex (nextID db), None)
  ∧ (RemoveFromStore (primitive.Hex (nextID db)) (Store o db).2).1 = None
  ∧ documents (RemoveFromStore (primitive.Hex (nextID db)) (Store o db).2).2
    = documents db.
Proof.
  intros Hid Hhex Hnet Hnone Hfresh.
  rewrite (Store_fresh o db uuid Hid (served_weaken _ _ Hnet) Hnone Hfresh).
  cbn [fst snd]. split; [reflexivity|]. set (db1 := afterInsert _ _ _).
  assert (Hnet1 : nextFate db1 = None).
  { eapply served_next, served_afterInsert, served_afterCall, Hnet. }
  unfold RemoveFromStore.
  destruct (decide (primitive.Hex (nextID db) = "")) as [Hempty|_];
    [by destruct (Hex_nonempty (nextID db))|].
  rewrite Hhex. fold (byID (nextID db)). unfold bind, DeleteOne, bind.
  rewrite roundTrip_eq, Hnet1. unfold get.
  change (documents (afterCall _ db1))
    with (documents db ++ [storedDocument (nextID db) uuid o]).
  rewrite removeFirst_app_last.
  - split; reflexivity.
  - by apply freshID_unmatched.
  - apply matches_singleton. apply lookup_insert_eq.
Qed.

(** X11. The identifier [Store] returns addresses the stored item in
    [UpdateRetryCount].  After a served [Store] of a new item and a served
    [UpdateRetryCount] under the returned identifier, which the codec
    decodes to the assigned opaque id, a served retrieval of the item's
    application service yields, after the objects that were there, the
    item with the new retry count and every other field, the payload
    among them, as it was stored. *)
Theorem Store_UpdateRetryCount_RetrieveFromStore
    (o : contracts.StoredObject) (uuid uuid' : string) (count : Z)
    (db : Database) :
  models.FromContractId (contracts.ID o) = (primitive.NilObjectID, uuid, None) →
  models.FromContractId (primitive.Hex (nextID db)) = (nextID db, uuid', None) →
  served 4 db →
  cursorFault db = None →
  withUUID uuid db = [] →
  freshID (VObjectID (nextID db)) db →
  Forall decodes (matching (contracts.AppServiceKey o) db) →
  let db1 := (Store o db).2 in
  let db2 := (UpdateRetryCount (primitive.Hex (nextID db)) count db1).2 in
  (UpdateRetryCount (primitive.Hex (nextID db)) count db1).1 = None
  ∧ (RetrieveFromStore (contracts.AppServiceKey o) db2).1
    = (retrievable (contracts.AppServiceKey o) db
         ++ [withID (models.Encode (nextID db) uuid) (withRetryCount count o)],
       None).
Proof.
  intros Hid Hhex Hnet Hfault Hnone Hfresh Hall db1 db2. subst db2 db1.
  rewrite (Store_fresh o db uuid Hid
             (served_weaken _ _ (served_weaken _ _ Hnet)) Hnone Hfresh).
  cbn [snd]. set (db1 := afterInsert _ _ _).
  assert (Hnet1 : served 2 db1).
  { eapply served_afterInsert, served_afterCall, Hnet. }
  rewrite (UpdateRetryCount_served _ count db1 (nextID db) uuid'
             (Hex_nonempty _) Hhex (served_next _ _ Hnet1)).
  cbn [fst snd]. split; [reflexivity|].
  change (documents db1) with (documents db ++ [storedDocument (nextID db) uuid o]).
  rewrite rewriteFirst_app_last;
    [|by apply freshID_unmatched|apply matches_singleton, lookup_insert_eq].
  cbn [fst]. set (db2 := Build_Database _ _ _ _ _).
  assert (Hnet2 : nextFate db2 = None).
  { apply (served_next 0). apply (served_tail 1 db1); [reflexivity|exact Hnet1]. }
  assert (Hmatch : matching (contracts.AppServiceKey o) db2
                   = matching (contracts.AppServiceKey o) db
                       ++ [<["retryCount" := VInt count]>
                             (storedDocument (nextID db) uuid o)]).
  { unfold matching, db2. cbn [documents].
    rewrite List.filter_app. cbn [List.filter].
    replace (matches _ (<["retryCount" := _]> _)) with true; [reflexivity|].
    symmetry. by apply matches_singleton. }
  rewrite (RetrieveFromStore_served _ db2 Hnet2). unfold delivered.
  change (cursorFault db2) with (cursorFault db). rewrite Hfault, Hmatch.
  rewrite forNext_decoded.
  - cbn [app]. rewrite !map_app, map_map. cbn [map].
    rewrite unmarshal_stored_retryCount. cbn [fst].
    by rewrite ToContract_modelOf.
  - apply Forall_app. split; [exact Hall|]. repeat constructor.
Qed.

(** X12. Of two served calls of [UpdateRetryCount] under the same
    identifier the last one wins: the collection is the one the second
    call alone would have left. *)
Theorem UpdateRetryCount_last_wins
    (id : string) (objID : primitive.ObjectID) (uuid : string)
    (count1 count2 : Z) (db : Database) :
  id ≠ "" →
  models.FromContractId id = (objID, uuid, None) →
  served 2 db →
  documents (UpdateRetryCount id count2 (UpdateRetryCount id count1 db).2).2
  = documents (UpdateRetryCount id count2 db).2.
Proof.
  intros Hne Hid Hnet.
  rewrite (UpdateRetryCount_served id count1 db objID uuid Hne Hid
             (served_next _ _ Hnet)).
  cbn [snd]. set (db1 := Build_Database _ _ _ _ _).
  assert (Hnet1 : nextFate db1 = None).
  { apply (served_next 0). apply (served_tail 1 db); [reflexivity|exact Hnet]. }
  rewrite (UpdateRetryCount_served id count2 db1 objID uuid Hne Hid Hnet1).
  rewrite (UpdateRetryCount_served id count2 db objID uuid Hne Hid
             (served_next _ _ Hnet)).
  cbn [snd documents db1].
  rewrite rewriteFirst_twice by (intros d; apply matches_byID_retryCount).
  f_equal. apply rewriteFirst_ext. intros d. apply insert_insert_eq.
Qed.

End Compositions.

(** ** Further properties of the bootstrap *)

Section BootstrapMore.
Variable config : db.Configuration.

Lemma run_snoc evs ev w :
  bootstrap.run config (evs ++ [ev]) w
  = match bootstrap.run config evs w with
    | Some w1 => bootstrap.step config ev w1
    | None => None
    end.
Proof.
  revert w. induction evs as [|ev0 rest IH]; intros w; simpl.
  - by destruct (bootstrap.step config ev w).
  - destruct (bootstrap.step config ev0 w) as [w1|]; [apply IH|reflexivity].
Qed.




Lemma step_progress evs ev w w' :
  progress_invariant evs w → bootstrap.step config ev w = Some w' →
  progress_invariant (evs ++ [ev]) w'.
Proof.
  intros (Hc & Hp & Hr) Hstep. destruct w as [c e mc md t k].
  unfold progress_invariant in *.
  cbn [bootstrap.caller bootstrap.task] in *.
  assert (Hkeep : ∀ x, x ∈ evs → x ∈ evs ++ [ev])
    by (intros x Hx; apply elem_of_app; by left).
  assert (Hnew : ev ∈ evs ++ [ev])
    by (apply elem_of_app; right; apply list_elem_of_singleton; reflexivity).
  destruct ev; cbn [bootstrap.step bootstrap.ctx bootstrap.task bootstrap.caller
                    bootstrap.err bootstrap.mongoClient bootstrap.mongoDatabase]
    in Hstep.
  - destruct c; [|discriminate]. injection Hstep as <-. cbn.
    split; [auto|]. split; [auto|]. intros c0 e0 Hk.
    destruct (Hr c0 e0 Hk). auto.
  - destruct t; try discriminate. injection Hstep as <-. cbn.
    split; [intros [|[|]]; discriminate|]. split; [intros [|]; discriminate|].
    intros c1 e1 Hk. destruct (Hr c1 e1 Hk). auto.
  - destruct t; try discriminate. injection Hstep as <-. cbn.
    split; [auto|]. split; [intros [|]; discriminate|].
    intros c1 e1 Hk. destruct (Hr c1 e1 Hk). auto.
  - destruct t; try discriminate. injection Hstep as <-. cbn.
    split; [intros [|[|]]; discriminate|]. split; [intros [|]; discriminate|].
    intros c1 e1 Hk. destruct (Hr c1 e1 Hk). auto.
  - destruct t; try discriminate. injection Hstep as <-. cbn.
    split; [intros _; apply Hkeep, Hc; by left|]. split; [auto|].
    intros c1 e1 Hk. destruct (Hr c1 e1 Hk). auto.
  - destruct t; try discriminate. injection Hstep as <-. cbn.
    split; [intros [|[|]]; discriminate|]. split; [intros [|]; discriminate|].
    intros c1 e1 Hk. destruct (Hr c1 e1 Hk). auto.
  - destruct t; try discriminate. injection Hstep as <-. cbn.
    split; [intros _; apply Hkeep, Hc; right; by left|].
    split; [intros _; apply Hkeep, Hp; by left|].
    intros c1 e1 Hk. destruct (Hr c1 e1 Hk). auto.
  - destruct k; [|discriminate]. destruct t; try discriminate.
    injection Hstep as <-. cbn.
    split; [intros [|[|]]; discriminate|]. split; [intros [|]; discriminate|].
    intros c1 e1 _. split; [apply Hkeep, Hc|apply Hkeep, Hp]; by right; try right.
  - destruct k; [|discriminate]. destruct c as [|cause]; [discriminate|].
    injection Hstep as <-. cbn.
    split; [auto|]. split; [auto|]. intros c1 e1 Hk. by destruct e.
Qed.

Lemma run_progress evs w :
  bootstrap.run config evs bootstrap.start = Some w → progress_invariant evs w.
Proof.
  revert w. induction evs as [|ev evs IH] using rev_ind; intros w.
  - intros [= <-]. split; [intros [|[|]]; discriminate|].
    split; [intros [|]; discriminate|]. intros c e. discriminate.
  - rewrite run_snoc.
    destruct (bootstrap.run config evs bootstrap.start) as [w1|]; [|discriminate].
    intros Hstep. exact (step_progress evs ev w1 w (IH w1 eq_refl) Hstep).
Qed.


End BootstrapMore.


(** X14. [NewClient] hands out a client only after the connect and the
    liveness probe have both succeeded: a run that ends with a client
    returned contains both successes. *)
Theorem NewClient_client_needs_connect_and_ping
    (config : db.Configuration) (evs : list bootstrap.Event)
    (w : bootstrap.World) (c : bootstrap.Client) (e : option error) :
  bootstrap.run config evs bootstrap.start = Some w →
  bootstrap.caller w = bootstrap.Returned (Some c) e →
  bootstrap.ConnectSucceeds ∈ evs ∧ bootstrap.PingSucceeds ∈ evs.
Proof.
  intros Hrun Hk. destruct (run_progress config evs w Hrun) as (_ & _ & Hr).
  exact (Hr c e Hk).
Qed.


(** ** Properties of the pipeline context *)

Section ContextFacts.

(** X16. [MarkAsPushed] marks by event id whenever the context has one,
    whatever its checksum, and by checksum only when it has no event id;
    either way it hands the event client the context's correlation id,
    makes that one call after its debug line, and returns the client's
    answer as it is. *)
Theorem MarkAsPushed_prefers_EventID
    (context : appcontext.Context) (w : appcontext.World) :
  (appcontext.EventID context ≠ "" →
     (appcontext.MarkAsPushed context w).1
     = appcontext.markPushed w (appcontext.EventID context)
         (appcontext.CorrelationID context)
     ∧ appcontext.calls (appcontext.MarkAsPushed context w).2
       = appcontext.calls w
         ++ [appcontext.Debug "Marking event as pushed";
             appcontext.MarkPushed (appcontext.EventID context)
               (appcontext.CorrelationID context)])
  ∧ (appcontext.EventID context = "" →
     appcontext.EventChecksum context ≠ "" →
     (appcontext.MarkAsPushed context w).1
     = appcontext.markPushedByChecksum w (appcontext.EventChecksum context)
         (appcontext.CorrelationID context)
     ∧ appcontext.calls (appcontext.MarkAsPushed context w).2
       = appcontext.calls w
         ++ [appcontext.Debug "Marking event as pushed";
             appcontext.MarkPushedByChecksum (appcontext.EventChecksum context)
               (appcontext.CorrelationID context)]).
Proof.
  unfold appcontext.MarkAsPushed. split.
  - intros Hid. destruct (decide (appcontext.EventID context ≠ "")) as [_|Hn];
      [|contradiction].
    cbn. split; [reflexivity|]. by rewrite <- app_assoc.
  - intros Hid Hsum. destruct (decide (appcontext.EventID context ≠ "")) as [Hn|_];
      [contradiction|].
    destruct (decide (appcontext.EventChecksum context ≠ "")) as [_|Hn];
      [|contradiction].
    cbn. split; [reflexivity|]. by rewrite <- app_assoc.
Qed.

(** X17. [MarkAsPushed] on a context with neither event id nor checksum
    fails with its own error and never reaches the event client: the debug
    line is the only call made. *)
Theorem MarkAsPushed_without_identity
    (context : appcontext.Context) (w : appcontext.World) :
  appcontext.EventID context = "" →
  appcontext.EventChecksum context = "" →
  (appcontext.MarkAsPushed context w).1
  = Some (errors_New "No EventID or EventChecksum Provided")
  ∧ appcontext.calls (appcontext.MarkAsPushed context w).2
    = appcontext.calls w ++ [appcontext.Debug "Marking event as pushed"].
Proof.
  intros Hid Hsum. unfold appcontext.MarkAsPushed.
  destruct (decide (appcontext.EventID context ≠ "")) as [Hn|_]; [contradiction|].
  destruct (decide (appcontext.EventChecksum context ≠ "")) as [Hn|_];
    [contradiction|].
  split; reflexivity.
Qed.

End ContextFacts.

Section PushFacts.
Variable Any : Type.
Variable CoerceType : Any → list Byte.byte * option error.

(** X18. [PushToCoreData] returns no event when something fails.  A value
    that cannot be coerced ends the call with the coercion error before
    the event client is reached; an event the client refuses ends it with
    the client's error as it is, after that one [Add]. *)
Theorem PushToCoreData_failures
    (context : appcontext.Context) (deviceName readingName : string)
    (value : Any) (w : appcontext.World) :
  let result := appcontext.PushToCoreData Any CoerceType context
                  deviceName readingName value w in
  (∀ val e, CoerceType value = (val, Some e) →
     result.1 = (None, Some e)
     ∧ appcontext.calls result.2
       = appcontext.calls w ++ [appcontext.Debug "Pushing to CoreData"])
  ∧ (∀ val event id e,
       CoerceType value = (val, None) →
       event = {| coremodels.ID := "";
                  coremodels.EventDevice := deviceName;
                  coremodels.EventOrigin := appcontext.now w;
                  coremodels.Readings :=
                    [ {| coremodels.Value := String.string_of_list_byte val;
                         coremodels.Origin := appcontext.now w;
                         coremodels.Device := deviceName;
                         coremodels.Name := readingName |} ] |} →
       appcontext.add w event (appcontext.newUUID w) = (id, Some e) →
       result.1 = (None, Some e)
       ∧ appcontext.calls result.2
         = appcontext.calls w
           ++ [appcontext.Debug "Pushing to CoreData";
               appcontext.Add event (appcontext.newUUID w)]).
Proof.
  intros result. subst result. unfold appcontext.PushToCoreData. split.
  - intros val e Hval. rewrite Hval. split; reflexivity.
  - intros val event id e Hval -> Hadd. rewrite Hval. cbn in *. rewrite Hadd.
    cbn. split; [reflexivity|]. by rewrite <- app_assoc.
Qed.

(** X19. When the value coerces and the event client accepts, [PushToCoreData]
    returns the event it sent, now under the id the client gave: an event
    of the device with one reading, of that device and the reading name,
    whose value is the coerced bytes as a string and whose origin is the
    origin of the event.  The event goes out once, under a fresh
    correlation id, not under the one of the context. *)
Theorem PushToCoreData_event
    (context : appcontext.Context) (deviceName readingName : string)
    (value : Any) (w : appcontext.World) (val : list Byte.byte) (id : string) :
  CoerceType value = (val, None) →
  let reading := {| coremodels.Value := String.string_of_list_byte val;
                    coremodels.Origin := appcontext.now w;
                    coremodels.Device := deviceName;
                    coremodels.Name := readingName |} in
  let sent := {| coremodels.ID := "";
                 coremodels.EventDevice := deviceName;
                 coremodels.EventOrigin := appcontext.now w;
                 coremodels.Readings := [reading] |} in
  appcontext.add w sent (appcontext.newUUID w) = (id, None) →
  let result := appcontext.PushToCoreData Any CoerceType context
                  deviceName readingName value w in
  result.1 = (Some {| coremodels.ID := id;
                      coremodels.EventDevice := deviceName;
                      coremodels.EventOrigin := appcontext.now w;
                      coremodels.Readings := [reading] |}, None)
  ∧ appcontext.calls result.2
    = appcontext.calls w
      ++ [appcontext.Debug "Pushing to CoreData";
          appcontext.Add sent (appcontext.newUUID w)].
Proof.
  intros Hval reading sent Hadd result. subst result reading sent.
  unfold appcontext.PushToCoreData. rewrite Hval. cbn in *. rewrite Hadd.
  cbn. split; [reflexivity|]. by rewrite <- app_assoc.
Qed.

End PushFacts.

(** ** The further properties on the sample data *)

Lemma Store_keeps_collection_well_kept_witness :
  wellKept (Store (codec := compositeCodec) restoredObject storedOnce).2.
Proof.
  apply (Store_keeps_collection_well_kept (codec := compositeCodec)
           restoredObject storedOnce).
  - discriminate.
  - split.
    + repeat constructor. exists 1%N. split; [reflexivity|discriminate].
    + unfold ids. computed.
Defined.

Lemma Store_restore_taken_id_witness :
  (Store (codec := compositeCodec) clashingObject storedOnce).1
  = ("", Some (WriteException 11000))
  ∧ documents (Store (codec := compositeCodec) clashingObject storedOnce).2
    = documents storedOnce
  ∧ issued storedOnce (Store (codec := compositeCodec) clashingObject storedOnce).2
      [InsertOneCall (storedDocument 1%N sampleUUID clashingObject)].
Proof.
  apply (Store_restore_taken_id (codec := compositeCodec)
           clashingObject 1%N sampleUUID storedOnce).
  - reflexivity.
  - discriminate.
  - constructor.
  - left. reflexivity.
Defined.

Lemma RetrieveFromStore_only_the_service_witness :
  Forall (λ o, contracts.AppServiceKey o = "svcA")
    (RetrieveFromStore (codec := compositeCodec) "svcA" twoServices).1.1
  ∧ length (RetrieveFromStore (codec := compositeCodec) "svcA" twoServices).1.1 = 2.
Proof.
  split; [|vm_compute; reflexivity].
  apply (RetrieveFromStore_only_the_service (codec := compositeCodec)
           "svcA" twoServices).
  vm_compute. reflexivity.
Defined.

Lemma Store_then_RetrieveFromStore_witness :
  (RetrieveFromStore (codec := compositeCodec) "svcA"
     (Store (codec := compositeCodec) sampleObject twoServices).2).1
  = (retrievable (codec := compositeCodec) "svcA" twoServices
       ++ [withID ("000000000000000000000004" +:+ sampleUUID) sampleObject],
     None).
Proof.
  apply (Store_then_RetrieveFromStore (codec := compositeCodec)
           sampleObject sampleUUID twoServices).
  - reflexivity.
  - constructor.
  - reflexivity.
  - unfold withUUID. computed.
  - unfold freshID. computed.
  - computed.
Defined.

Lemma Update_replaces_whole_document_witness :
  (Update (codec := compositeCodec) clashingObject storedOnce).1 = None
  ∧ documents (Update (codec := compositeCodec) clashingObject storedOnce).2
    = [storedDocument 1%N sampleUUID clashingObject].
Proof.
  destruct (Update_replaces_whole_document (codec := compositeCodec)
              clashingObject (modelOf 1%N sampleUUID clashingObject) storedOnce)
    as (Hres & _ & Hdocs & _).
  - discriminate.
  - reflexivity.
  - discriminate.
  - constructor.
  - split; [exact Hres|]. rewrite Hdocs. reflexivity.
Defined.

Lemma Update_unmatched_is_silent_witness :
  (Update (codec := compositeCodec) restoredObject storedOnce).1 = None
  ∧ documents (Update (codec := compositeCodec) restoredObject storedOnce).2
    = documents storedOnce.
Proof.
  apply (Update_unmatched_is_silent (codec := compositeCodec)
           restoredObject (modelOf 42%N sampleUUID restoredObject) storedOnce).
  - discriminate.
  - reflexivity.
  - constructor.
  - unfold freshID. computed.
Defined.

Lemma RemoveFromStore_removes_one_witness :
  (∃ e, RemoveFromStore (codec := compositeCodec) "" storedOnce
        = (Some e, storedOnce) ∧ MissingIdentifier e)
  ∧ (RemoveFromStore (codec := compositeCodec) idOne storedOnce).1 = None
  ∧ documents (RemoveFromStore (codec := compositeCodec) idOne storedOnce).2 = []
  ∧ (RemoveFromStore (codec := compositeCodec) idOne emptyDatabase).1 = None.
Proof.
  destruct (RemoveFromStore_removes_one (codec := compositeCodec) "" storedOnce)
    as [Hempty _].
  destruct (RemoveFromStore_removes_one (codec := compositeCodec) idOne storedOnce)
    as [_ Hone].
  destruct (RemoveFromStore_removes_one (codec := compositeCodec) idOne emptyDatabase)
    as [_ Hnone].
  assert (Hne : idOne ≠ "") by discriminate.
  assert (Hid : models.FromContractId (IdentifierCodec := compositeCodec) idOne
                = (1%N, sampleUUID, None)) by reflexivity.
  destruct (Hone 1%N sampleUUID Hne Hid ltac:(constructor))
    as (Hres & _ & Hdocs & _).
  destruct (Hnone 1%N sampleUUID Hne Hid ltac:(constructor)) as (Hres0 & _).
  split; [exact (Hempty eq_refl)|]. split; [exact Hres|].
  split; [rewrite Hdocs; reflexivity|exact Hres0].
Defined.

Lemma Store_then_RemoveFromStore_witness :
  (Store (codec := compositeCodec) sampleObject twoServices).1
  = ("000000000000000000000004", None)
  ∧ (RemoveFromStore (codec := compositeCodec) "000000000000000000000004"
       (Store (codec := compositeCodec) sampleObject twoServices).2).1 = None
  ∧ documents
      (RemoveFromStore (codec := compositeCodec) "000000000000000000000004"
         (Store (codec := compositeCodec) sampleObject twoServices).2).2
    = documents twoServices.
Proof.
  apply (Store_then_RemoveFromStore (codec := compositeCodec)
           sampleObject sampleUUID "" twoServices).
  - reflexivity.
  - reflexivity.
  - constructor.
  - unfold withUUID. computed.
  - unfold freshID. computed.
Defined.

Lemma Store_UpdateRetryCount_RetrieveFromStore_witness :
  (RetrieveFromStore (codec := compositeCodec) "svcA"
     (UpdateRetryCount (codec := compositeCodec) "000000000000000000000004" 3
        (Store (codec := compositeCodec) sampleObject twoServices).2).2).1
  = (retrievable (codec := compositeCodec) "svcA" twoServices
       ++ [withID ("000000000000000000000004" +:+ sampleUUID)
             (withRetryCount 3 sampleObject)],
     None).
Proof.
  refine (proj2 (Store_UpdateRetryCount_RetrieveFromStore (codec := compositeCodec)
                   sampleObject sampleUUID "" 3 twoServices _ _ _ _ _ _ _)).
  - reflexivity.
  - reflexivity.
  - constructor.
  - reflexivity.
  - unfold withUUID. computed.
  - unfold freshID. computed.
  - computed.
Defined.

Lemma UpdateRetryCount_last_wins_witness :
  documents
    (UpdateRetryCount (codec := compositeCodec) idOne 2
       (UpdateRetryCount (codec := compositeCodec) idOne 1 storedOnce).2).2
  = documents (UpdateRetryCount (codec := compositeCodec) idOne 2 storedOnce).2.
Proof.
  apply (UpdateRetryCount_last_wins (codec := compositeCodec)
           idOne 1%N sampleUUID 1 2 storedOnce).
  - discriminate.
  - reflexivity.
  - constructor.
Defined.


Lemma NewClient_client_needs_connect_and_ping_witness :
  bootstrap.ConnectSucceeds ∈ promptConnect
  ∧ bootstrap.PingSucceeds ∈ promptConnect.
Proof.
  refine (NewClient_client_needs_connect_and_ping sampleConfig promptConnect
            _ _ None eq_refl eq_refl).
Defined.


Lemma MarkAsPushed_prefers_EventID_witness :
  (appcontext.MarkAsPushed jsonContext quietWorld).1 = None
  ∧ appcontext.calls (appcontext.MarkAsPushed jsonContext quietWorld).2
    = [appcontext.Debug "Marking event as pushed";
       appcontext.MarkPushed "event-1" "corr-1"]
  ∧ appcontext.calls (appcontext.MarkAsPushed cborContext quietWorld).2
    = [appcontext.Debug "Marking event as pushed";
       appcontext.MarkPushedByChecksum "0bad" "corr-2"].
Proof.
  destruct (MarkAsPushed_prefers_EventID jsonContext quietWorld) as [Hjson _].
  destruct (MarkAsPushed_prefers_EventID cborContext quietWorld) as [_ Hcbor].
  destruct Hjson as [Hres Hcalls]; [discriminate|].
  destruct Hcbor as [_ Hcalls']; [reflexivity|discriminate|].
  split; [exact Hres|]. split; [exact Hcalls|exact Hcalls'].
Defined.

Lemma MarkAsPushed_without_identity_witness :
  (appcontext.MarkAsPushed anonymousContext quietWorld).1
  = Some (errors_New "No EventID or EventChecksum Provided")
  ∧ appcontext.calls (appcontext.MarkAsPushed anonymousContext quietWorld).2
    = [appcontext.Debug "Marking event as pushed"].
Proof.
  apply (MarkAsPushed_without_identity anonymousContext quietWorld); reflexivity.
Defined.

Lemma PushToCoreData_failures_witness :
  (appcontext.PushToCoreData _ sampleCoerce jsonContext "device-1" "temperature"
     [] quietWorld).1 = (None, Some (errors_New "empty value"))
  ∧ appcontext.calls
      (appcontext.PushToCoreData _ sampleCoerce jsonContext "device-1"
         "temperature" [] quietWorld).2
    = [appcontext.Debug "Pushing to CoreData"]
  ∧ (appcontext.PushToCoreData _ sampleCoerce jsonContext "device-1" "temperature"
       [Byte.x32; Byte.x31] refusingWorld).1
    = (None, Some (CommandError "core data is down")).
Proof.
  destruct (PushToCoreData_failures _ sampleCoerce jsonContext "device-1"
              "temperature" [] quietWorld) as [Hcoerce _].
  destruct (PushToCoreData_failures _ sampleCoerce jsonContext "device-1"
              "temperature" [Byte.x32; Byte.x31] refusingWorld) as [_ Hadd].
  destruct (Hcoerce [] (errors_New "empty value") eq_refl) as [Hres Hcalls].
  destruct (Hadd [Byte.x32; Byte.x31] _ "" (CommandError "core data is down")
              eq_refl eq_refl eq_refl) as [Hres' _].
  split; [exact Hres|]. split; [exact Hcalls|exact Hres'].
Defined.

Lemma PushToCoreData_event_witness :
  (appcontext.PushToCoreData _ sampleCoerce jsonContext "device-1" "temperature"
     [Byte.x32; Byte.x31] quietWorld).1
  = (Some {| coremodels.ID := "event-2";
             coremodels.EventDevice := "device-1";
             coremodels.EventOrigin := 1570000000000000000;
             coremodels.Readings :=
               [ {| coremodels.Value := "21";
                    coremodels.Origin := 1570000000000000000;
                    coremodels.Device := "device-1";
                    coremodels.Name := "temperature" |} ] |}, None).
Proof.
  refine (proj1 (PushToCoreData_event _ sampleCoerce jsonContext "device-1"
                   "temperature" [Byte.x32; Byte.x31] quietWorld
                   [Byte.x32; Byte.x31] "event-2" eq_refl eq_refl)).
Defined.
